(** * Aomail front end: settings, category and account-link handlers

    A shallow embedding of the TypeScript handlers of the Vue components
    that drive prompt customisation, category maintenance and mailbox
    linking, together with the properties they satisfy.

    Conventions of the embedding.
    - A JavaScript string is the list of its UTF-16 code units, so that
      [length], [trim] and [includes] are the ones of the language.
    - A handler is a function from the component state (and from the
      answers of the server calls it awaits) to the new component state.
      The state carries a log of the effects the handler performed: the
      requests it sent, the pop-ups it displayed, the events it emitted.
    - [undefined] is [None].
    - A handler runs to its end before the next one starts; the
      callbacks a component injects ([displayPopup] and the like) are
      provided; a translated text is represented by its key. *)

From Stdlib Require Import ZArith NArith List Bool Ascii String Lia.
From stdpp Require Import base option list gmap.

Open Scope list_scope.

(** ** JavaScript strings *)

Module JS.

Definition code_unit := N.
Definition jsstring := list code_unit.

(** A literal of the program text, one code unit per character. *)
Fixpoint js (s : string) : jsstring :=
  match s with
  | EmptyString => []
  | String a s' => N_of_ascii a :: js s'
  end.

(** [s === t] on strings. *)
Definition str_eqb (s t : jsstring) : bool := bool_decide (s = t).

(** [o === s] where [o] may be [undefined]. *)
Definition opt_eqb (o : option jsstring) (s : jsstring) : bool :=
  bool_decide (o = Some s).

Fixpoint startsWith (hay needle : jsstring) {struct needle} : bool :=
  match needle, hay with
  | [], _ => true
  | _ :: _, [] => false
  | n :: ns, h :: hs => bool_decide (n = h) && startsWith hs ns
  end.

(** [hay.includes(needle)] *)
Fixpoint includes (hay needle : jsstring) : bool :=
  startsWith hay needle ||
  match hay with
  | [] => false
  | _ :: hs => includes hs needle
  end.

(** [parts.join(sep)] *)
Fixpoint join (sep : jsstring) (parts : list jsstring) : jsstring :=
  match parts with
  | [] => []
  | [p] => p
  | p :: ps => p ++ sep ++ join sep ps
  end.

(** WhiteSpace and LineTerminator code points of ECMAScript, the ones
    [trim] strips. *)
Definition isWhiteSpace (c : code_unit) : bool :=
  ((9 <=? c) && (c <=? 13) || (c =? 32) || (c =? 160) || (c =? 5760)
   || (8192 <=? c) && (c <=? 8202) || (c =? 8232) || (c =? 8233)
   || (c =? 8239) || (c =? 8287) || (c =? 12288) || (c =? 65279))%N.

Fixpoint trimStart (s : jsstring) : jsstring :=
  match s with
  | [] => []
  | c :: s' => if isWhiteSpace c then trimStart s' else s
  end.

Definition trimEnd (s : jsstring) : jsstring := rev (trimStart (rev s)).

(** [s.trim()] *)
Definition trim (s : jsstring) : jsstring := trimEnd (trimStart s).

(** The two halves of a surrogate pair. *)
Definition isHighSurrogate (c : code_unit) : bool := ((55296 <=? c) && (c <=? 56319))%N.
Definition isLowSurrogate (c : code_unit) : bool := ((56320 <=? c) && (c <=? 57343))%N.

(** The number of characters (code points) of a string, the length of
    [[...s]]: a high surrogate followed by a low one is one character,
    where [s.length] counts two code units. *)
Fixpoint characters (s : jsstring) : nat :=
  match s with
  | [] => 0
  | c :: rest =>
      match rest with
      | d :: rest' =>
          if isHighSurrogate c && isLowSurrogate d then S (characters rest')
          else S (characters rest)
      | [] => 1
      end
  end.

(** [!s]: the empty string is the only falsy string. *)
Definition falsy (s : jsstring) : bool :=
  match s with [] => true | _ :: _ => false end.

End JS.
Import JS.

(** ** Server calls

    [getData], [postData], [putData] and [deleteData] resolve to a
    [FetchDataResult]: [success] with [data], or failure with [error]. *)

Inductive FetchDataResult (D : Type) : Type :=
| Success (data : D)
| Failure (error : jsstring).
Arguments Success {D} data.
Arguments Failure {D} error.

Definition success {D} (r : FetchDataResult D) : bool :=
  match r with Success _ => true | Failure _ => false end.

(** Values placed in request bodies. *)
#[local] Set Warnings "-register-all".
Inductive Json : Type :=
| JUndefined
| JNull
| JBool (b : bool)
| JStr (s : jsstring)
| JArr (items : list Json)
| JObj (fields : list (jsstring * Json)).
#[local] Set Warnings "register-all".

Definition JOptStr (o : option jsstring) : Json :=
  match o with Some s => JStr s | None => JUndefined end.

Inductive PopupType := error | ok.

(** Text shown to the user: a translation key, a translation key with
    named parameters, or a string taken from a server answer. *)
Inductive Text : Type :=
| t (key : string)
| tWith (key : string) (params : list (string * jsstring))
| raw (s : jsstring).

(** What a handler does besides updating the component state. [Call]
    is a call of a function the component injects or imports and whose
    body belongs to another file. *)
Inductive Effect : Type :=
| GetData (path : string)
| PostData (path : string) (body : Json)
| PutData (path : string) (body : Json)
| DeleteData (path : string) (body : Json)
| DisplayPopup (type : PopupType) (title message : Text)
| Emit (event : string) (payload : Json)
| Call (function : string) (arguments : list Json)
| TypeError.

(** ** Prompt customisation page *)

Module LLM.

Record Prompt := { prompt : jsstring; variables : list jsstring }.

Record LLMModel := { name : jsstring; description : jsstring }.

Record LLMProvider := {
  provider : jsstring;
  headquarters : jsstring;
  apiReference : jsstring;
  provider_description : jsstring;
  models : list LLMModel
}.

Definition google : LLMProvider := {|
  provider := js "google";
  headquarters := js "Mountain View, CA, USA";
  apiReference := js "https://ai.google.dev/gemini-api/docs/models/gemini";
  provider_description := js "Google's AI model provider";
  models := [
    {| name := js "gemini-1.5-pro";
       description := js "Most capable model for highly complex tasks, with improved performance in coding, math, and reasoning. Supports text, images, and function calling." |};
    {| name := js "gemini-2.0-flash";
       description := js "Latest model optimized for speed and efficiency. Best for real-time applications requiring fast responses while maintaining high quality output." |} ]
|}.

Definition openai : LLMProvider := {|
  provider := js "openai";
  headquarters := js "San Francisco, CA, USA";
  apiReference := js "https://platform.openai.com/docs/models#gpt-4o";
  provider_description := js "OpenAI's AI model provider";
  models := [
    {| name := js "gpt-4o-mini";
       description := js "Most capable multimodal model, optimized for both vision and language tasks. Excels at complex reasoning and creative generation." |} ]
|}.

Definition anthropic : LLMProvider := {|
  provider := js "anthropic";
  headquarters := js "San Francisco, CA, USA";
  apiReference := js "https://docs.anthropic.com/en/docs/about-claude/models/all-models";
  provider_description := js "Anthropic's AI model provider";
  models := [
    {| name := js "claude-3-5-haiku-latest";
       description := js "Fastest and most cost-effective Claude model. Optimized for quick responses while maintaining high accuracy on common tasks." |} ]
|}.

Definition ministral8b : LLMModel :=
  {| name := js "ministral-8b-latest";
     description := js "Efficient 8B parameter model optimized for edge deployment. Excellent performance-to-size ratio for local inference." |}.

Definition mistralSmall : LLMModel :=
  {| name := js "mistral-small-latest";
     description := js "Compact but powerful model with strong reasoning capabilities. Ideal for production deployments requiring balance of speed and quality." |}.

Definition mistral : LLMProvider := {|
  provider := js "mistral";
  headquarters := js "Paris, France";
  apiReference := js "https://docs.mistral.ai/getting-started/models/models_overview/";
  provider_description := js "Mistral's AI model provider";
  models := [ministral8b; mistralSmall]
|}.

Definition groq : LLMProvider := {|
  provider := js "groq";
  headquarters := js "Mountain View, CA, USA";
  apiReference := js "https://console.groq.com/docs/api-reference";
  provider_description := js "Groq's AI model provider";
  models := [
    {| name := js "llama3-8b-8192";
       description := js "Most capable model from Meta AI" |} ]
|}.

Definition deepseek : LLMProvider := {|
  provider := js "deepseek";
  headquarters := js "Hangzhou, Zhejiang, China";
  apiReference := js "https://deepseek.com/docs/api-reference";
  provider_description := js "DeepSeek's AI model provider";
  models := [
    {| name := js "deepseek-chat";
       description := js "Default model for general purpose tasks" |} ]
|}.

Definition llmProviderOptions : list LLMProvider :=
  [google; openai; anthropic; mistral; groq; deepseek].

(** [llmProviderOptions[0]]; the array literal is not empty. *)
Definition firstProvider : LLMProvider := hd google llmProviderOptions.

(** [p.models[0]], [undefined] on an empty list. *)
Definition firstModel (p : LLMProvider) : option LLMModel := head (models p).

#[global] Instance LLMModel_eq_dec : EqDecision LLMModel.
Proof. solve_decision. Defined.

(** The refs of the component and the log of its effects. Each of the
    two drop-downs can empty its ref: [llmProvider] and [llmModel] are
    [None] when they hold [null] or [undefined]. *)
Record State := {
  llmProvider : option LLMProvider;
  llmModel : option LLMModel;
  promptInput : jsstring;
  editingPrompt : option jsstring;
  customizablePrompts : gmap jsstring Prompt;
  effects : list Effect
}.

Definition set_llmProvider (p : option LLMProvider) (st : State) : State :=
  {| llmProvider := p; llmModel := llmModel st; promptInput := promptInput st;
     editingPrompt := editingPrompt st;
     customizablePrompts := customizablePrompts st; effects := effects st |}.

Definition set_llmModel (m : option LLMModel) (st : State) : State :=
  {| llmProvider := llmProvider st; llmModel := m; promptInput := promptInput st;
     editingPrompt := editingPrompt st;
     customizablePrompts := customizablePrompts st; effects := effects st |}.

Definition set_promptInput (s : jsstring) (st : State) : State :=
  {| llmProvider := llmProvider st; llmModel := llmModel st; promptInput := s;
     editingPrompt := editingPrompt st;
     customizablePrompts := customizablePrompts st; effects := effects st |}.

Definition set_editingPrompt (k : option jsstring) (st : State) : State :=
  {| llmProvider := llmProvider st; llmModel := llmModel st;
     promptInput := promptInput st; editingPrompt := k;
     customizablePrompts := customizablePrompts st; effects := effects st |}.

Definition set_customizablePrompts (m : gmap jsstring Prompt) (st : State) : State :=
  {| llmProvider := llmProvider st; llmModel := llmModel st;
     promptInput := promptInput st; editingPrompt := editingPrompt st;
     customizablePrompts := m; effects := effects st |}.

(** Append to the log. *)
Definition perform (es : list Effect) (st : State) : State :=
  {| llmProvider := llmProvider st; llmModel := llmModel st;
     promptInput := promptInput st; editingPrompt := editingPrompt st;
     customizablePrompts := customizablePrompts st;
     effects := effects st ++ es |}.

(** The refs as the script initialises them. *)
Definition initial : State := {|
  llmProvider := Some firstProvider;
  llmModel := firstModel firstProvider;
  promptInput := [];
  editingPrompt := None;
  customizablePrompts := ∅;
  effects := []
|}.

(** [function changeProvider()]; [llmProvider.value.models] is a
    [TypeError] when no provider is selected. *)
Definition changeProvider (st : State) : State :=
  match llmProvider st with
  | Some p => set_llmModel (firstModel p) st
  | None => perform [TypeError] st
  end.

(** Selecting an option of the provider drop-down: the option becomes
    the value of [llmProvider] ([v-model]) and [changeProvider], the
    [@select] handler, runs on it. *)
Definition selectProvider (p : LLMProvider) (st : State) : State :=
  changeProvider (set_llmProvider (Some p) st).

(** [const llmModelOptions = computed(...)]. The getter reads
    [llmProvider.value.provider] and throws when no provider is selected:
    no list is then available. *)
Definition llmModelOptions (st : State) : list LLMModel :=
  match llmProvider st with
  | Some selected =>
      match find (fun p => str_eqb (provider p) (provider selected))
                 llmProviderOptions with
      | Some p => models p
      | None => []
      end
  | None => []
  end.

(** Selecting an option of the model drop-down: [v-model="llmModel"]
    over [llmModelOptions]. *)
Definition selectModel (m : LLMModel) (st : State) : State :=
  set_llmModel (Some m) st.

(** A click on an option of the provider drop-down. Neither drop-down
    of the template sets [allow-empty] to false, and the multiselect
    component then takes a click on the selected option (the one with the
    same [track-by="provider"] key) as its removal: the ref is emptied
    and no [select] is emitted, so [changeProvider] does not run. A click
    on any other option selects it. *)
Definition clickProvider (p : LLMProvider) (st : State) : State :=
  if bool_decide (provider <$> llmProvider st = Some (provider p)) then
    set_llmProvider None st
  else selectProvider p st.

(** A click on an option of the model drop-down, which has no
    [track-by]: the selected option is the object the ref holds. *)
Definition clickModel (m : LLMModel) (st : State) : State :=
  if bool_decide (llmModel st = Some m) then set_llmModel None st
  else selectModel m st.

(** The answer of [GET user/preferences/llm_settings/]: the stored
    selection and one entry per customisable prompt. A field that is
    missing or is not a string is [None]. *)
Record LLMSettings := {
  data_llmProvider : option jsstring;
  data_llmModel : option jsstring;
  data_prompts : gmap jsstring Prompt
}.

Definition llm_settings : string := "user/preferences/llm_settings/".

(** [async function fetchLLMSettings()] *)
Definition fetchLLMSettings (result : FetchDataResult LLMSettings) (st : State) : State :=
  let st := perform [GetData llm_settings] st in
  match result with
  | Failure e =>
      perform [DisplayPopup error (raw (js "Failed to fetch LLM settings")) (raw e)] st
  | Success data =>
      let st :=
        set_llmProvider
          (Some (default firstProvider
                   (find (fun p => opt_eqb (data_llmProvider data) (provider p))
                         llmProviderOptions))) st in
      let st :=
        set_llmModel
          (match find (fun m => opt_eqb (data_llmModel data) (name m))
                      (llmModelOptions st) with
           | Some m => Some m
           | None => head (llmModelOptions st)
           end) st in
      set_customizablePrompts (data_prompts data) st
  end.

(** The synchronous prefix of [resetToDefault]: the four assignments
    made before the request is sent. *)
Definition resetRefs (st : State) : State :=
  let st := set_llmModel (firstModel firstProvider) st in
  let st := set_llmProvider (Some firstProvider) st in
  let st := set_promptInput [] st in
  set_editingPrompt None st.

(** [async function resetToDefault()] *)
Definition resetToDefault (del : FetchDataResult unit)
    (get : FetchDataResult LLMSettings) (st : State) : State :=
  let st := resetRefs st in
  let st := perform [DeleteData llm_settings (JObj [(js "resetAll", JBool true)])] st in
  match del with
  | Failure e =>
      perform [DisplayPopup error
                 (t "constants.popUpConstants.errorMessages.resetError") (raw e)] st
  | Success _ =>
      let st :=
        perform [DisplayPopup ok
                   (t "constants.popUpConstants.successMessages.resetSuccess")
                   (t "constants.popUpConstants.successMessages.resetSuccessDesc")] st in
      fetchLLMSettings get st
  end.

(** A computed key [[editingPrompt.value as string]]: [null] prints as
    its name. *)
Definition promptKey (k : option jsstring) : jsstring := default (js "null") k.

(** [customizablePrompts.value[k].prompt || ""], a [TypeError] when the
    entry is missing. *)
Definition loadPrompt (k : jsstring) (st : State) : State :=
  match customizablePrompts st !! k with
  | Some p => set_promptInput (prompt p) st
  | None => perform [TypeError] st
  end.

(** [async function resetSelectedPrompt()] *)
Definition resetSelectedPrompt (del : FetchDataResult unit)
    (get : FetchDataResult LLMSettings) (st : State) : State :=
  let st :=
    perform [DeleteData llm_settings
               (JObj [(promptKey (editingPrompt st), JBool true)])] st in
  match del with
  | Failure e =>
      perform [DisplayPopup error
                 (t "constants.popUpConstants.errorMessages.resetSelectedError")
                 (raw e)] st
  | Success _ =>
      let st :=
        perform [DisplayPopup ok
                   (t "constants.popUpConstants.successMessages.resetSelectedSuccess")
                   (t "constants.popUpConstants.successMessages.resetSelectedSuccessDesc")] st in
      let st := fetchLLMSettings get st in
      match editingPrompt st with
      | Some k => if falsy k then st else loadPrompt k st
      | None => st
      end
  end.

(** [async function saveLLMSettings()]; [llmProvider.value.provider]
    and [llmModel.value.name] are a [TypeError] when no provider, or no
    model, is selected. *)
Definition saveLLMSettings (put : FetchDataResult unit)
    (get : FetchDataResult LLMSettings) (st : State) : State :=
  match llmProvider st, llmModel st with
  | None, _ | _, None => perform [TypeError] st
  | Some p, Some m =>
      let st :=
        perform [PutData llm_settings
                   (JObj [(js "llmProvider", JStr (provider p));
                          (js "llmModel", JStr (name m))])] st in
      match put with
      | Failure e =>
          perform [DisplayPopup error
                     (t "constants.popUpConstants.errorMessages.saveLLMSettingsError")
                     (raw e)] st
      | Success _ =>
          let st :=
            perform [DisplayPopup ok
                       (t "constants.popUpConstants.successMessages.saveLLMSettingsSuccess")
                       (t "constants.popUpConstants.successMessages.saveLLMSettingsSuccessDesc")] st in
          fetchLLMSettings get st
      end
  end.

(** The template literal [`{${variable}}`]. *)
Definition placeholder (variable : jsstring) : jsstring :=
  js "{" ++ variable ++ js "}".

(** [promptData.variables.filter((variable) =>
      !promptInput.value.includes(`{${variable}}`))] *)
Definition missingVariables (promptData : Prompt) (input : jsstring) : list jsstring :=
  List.filter (fun variable => negb (includes input (placeholder variable)))
              (variables promptData).

Definition noPromptSelected : Effect :=
  DisplayPopup error
    (t "constants.popUpConstants.errorMessages.noPromptSelected")
    (t "constants.popUpConstants.errorMessages.noPromptSelectedDesc").

Definition missingVariablesPopup (missing : list jsstring) : Effect :=
  DisplayPopup error
    (t "constants.popUpConstants.errorMessages.missingVariables")
    (tWith "constants.popUpConstants.errorMessages.missingVariablesDesc"
           [("variables"%string, join (js ", ") missing)]).

Definition savePromptRequest (k input : jsstring) : Effect :=
  PutData llm_settings (JObj [(k, JStr input)]).

Definition savePromptAnswer (put : FetchDataResult unit) : Effect :=
  match put with
  | Failure e =>
      DisplayPopup error
        (t "constants.popUpConstants.errorMessages.savePromptError") (raw e)
  | Success _ =>
      DisplayPopup ok
        (t "constants.popUpConstants.successMessages.promptSaved")
        (t "constants.popUpConstants.successMessages.promptSavedDesc")
  end.

(** [async function savePrompt()] *)
Definition savePrompt (put : FetchDataResult unit) (st : State) : State :=
  match editingPrompt st with
  | None => perform [noPromptSelected] st
  | Some k =>
      if falsy k then perform [noPromptSelected] st
      else
        match customizablePrompts st !! k with
        | None => perform [TypeError] st
        | Some promptData =>
            let missing := missingVariables promptData (promptInput st) in
            if (0 <? length missing)%nat then
              perform [missingVariablesPopup missing] st
            else
              perform [savePromptRequest k (promptInput st); savePromptAnswer put] st
        end
  end.

(** [function setEditingPrompt(promptName: string)] *)
Definition setEditingPrompt (promptName : jsstring) (st : State) : State :=
  loadPrompt promptName (set_editingPrompt (Some promptName) st).

(** The user's moves on the page and the handlers they trigger: a click
    on an option of one of the two drop-downs, which selects it or, on
    the selected option, empties the selection; typing into the editor;
    the buttons and the fetch made when the page is mounted. *)
Inductive Operation : Type :=
| ClickProvider (p : LLMProvider)
| ClickModel (m : LLMModel)
| TypePrompt (input : jsstring)
| SetEditingPrompt (promptName : jsstring)
| FetchLLMSettings (get : FetchDataResult LLMSettings)
| ResetToDefault (del : FetchDataResult unit) (get : FetchDataResult LLMSettings)
| ResetSelectedPrompt (del : FetchDataResult unit) (get : FetchDataResult LLMSettings)
| SaveLLMSettings (put : FetchDataResult unit) (get : FetchDataResult LLMSettings)
| SavePrompt (put : FetchDataResult unit).

(** What the template offers: the provider drop-down lists
    [llmProviderOptions], the model drop-down [llmModelOptions], the
    selected option included in both, and a prompt card exists for each
    key of [customizablePrompts]. *)
Definition offered (op : Operation) (st : State) : Prop :=
  match op with
  | ClickProvider p => In p llmProviderOptions
  | ClickModel m => In m (llmModelOptions st)
  | SetEditingPrompt promptName => is_Some (customizablePrompts st !! promptName)
  | _ => True
  end.

Definition run (op : Operation) (st : State) : State :=
  match op with
  | ClickProvider p => clickProvider p st
  | ClickModel m => clickModel m st
  | TypePrompt input => set_promptInput input st
  | SetEditingPrompt promptName => setEditingPrompt promptName st
  | FetchLLMSettings get => fetchLLMSettings get st
  | ResetToDefault del get => resetToDefault del get st
  | ResetSelectedPrompt del get => resetSelectedPrompt del get st
  | SaveLLMSettings put get => saveLLMSettings put get st
  | SavePrompt put => savePrompt put st
  end.

(** The states of the page: the initial refs, then any offered move. *)
Inductive reachable : State -> Prop :=
| reachable_initial : reachable initial
| reachable_run op st : reachable st -> offered op st -> reachable (run op st).

(** The selected model is one of the models of the selected provider,
    itself one of the catalog. *)
Definition consistent (st : State) : Prop :=
  exists p, llmProvider st = Some p /\ In p llmProviderOptions /\
  exists m, llmModel st = Some m /\ In m (models p).

(** The system default: the first provider and its first model. *)
Definition defaultSelection (st : State) : Prop :=
  llmProvider st = Some firstProvider /\ llmModel st = firstModel firstProvider.

(** The effects a handler added to the log. *)
Definition performed (before after : State) : list Effect :=
  drop (length (effects before)) (effects after).

(** [needle] is a contiguous part of [hay]. *)
Definition occursIn (needle hay : jsstring) : Prop :=
  exists before after, hay = before ++ needle ++ after.

(** Every required variable of the template occurs in the body as its
    placeholder. *)
Definition allPresent (promptData : Prompt) (body : jsstring) : Prop :=
  forall v, In v (variables promptData) -> occursIn (placeholder v) body.

Definition promptSaved : Effect :=
  DisplayPopup ok
    (t "constants.popUpConstants.successMessages.promptSaved")
    (t "constants.popUpConstants.successMessages.promptSavedDesc").

(** Two states of the page used as examples: one prompt, which requires
    [subject] and [sender], is being edited, with a body that names both
    and with a body that names only the first. *)
Definition summaryPrompt : Prompt :=
  {| prompt := js "Summarize {subject} from {sender}";
     variables := [js "subject"; js "sender"] |}.

Definition editing (body : jsstring) : State :=
  {| llmProvider := Some firstProvider;
     llmModel := firstModel firstProvider;
     promptInput := body;
     editingPrompt := Some (js "summary");
     customizablePrompts := {[ js "summary" := summaryPrompt ]};
     effects := [] |}.

End LLM.

(** ** Inbox: categories *)

Module Inbox.

Record Category := { name : jsstring; description : jsstring }.

Definition JCategory (c : Category) : Json :=
  JObj [(js "name", JStr (name c)); (js "description", JStr (description c))].

(** The checks shared by the two category forms, in the order of the
    source. *)
Definition pleaseFillAllFields : Text := t "homePage.modals.pleaseFillAllFields".
Definition maxNameCharacters : Text :=
  t "homePage.modals.newCategoryModal.maxNameCharacters".
Definition maxDescriptionCharacters : Text :=
  t "homePage.modals.newCategoryModal.maxDescriptionCharacters".

(** *** NewCategoryModal.vue *)
Module NewCategoryModal.

Record State := {
  isOpen : bool;
  categories : list Category;
  selectedCategory : jsstring;
  categoryName : jsstring;
  categoryDescription : jsstring;
  errorMessage : Text;
  effects : list Effect
}.

Definition set_errorMessage (m : Text) (st : State) : State :=
  {| isOpen := isOpen st; categories := categories st;
     selectedCategory := selectedCategory st; categoryName := categoryName st;
     categoryDescription := categoryDescription st; errorMessage := m;
     effects := effects st |}.

Definition perform (es : list Effect) (st : State) : State :=
  {| isOpen := isOpen st; categories := categories st;
     selectedCategory := selectedCategory st; categoryName := categoryName st;
     categoryDescription := categoryDescription st;
     errorMessage := errorMessage st; effects := effects st ++ es |}.

(** [const resetForm = () => {...}] *)
Definition resetForm (st : State) : State :=
  {| isOpen := isOpen st; categories := categories st;
     selectedCategory := selectedCategory st; categoryName := [];
     categoryDescription := []; errorMessage := raw [];
     effects := effects st |}.

(** [const closeModal = () => {...}] *)
Definition closeModal (st : State) : State :=
  resetForm (perform [Emit "close" JUndefined] st).

Definition createRequest (st : State) : Effect :=
  PostData "create_categories/"
    (JObj [(js "categories",
            JArr [JObj [(js "name", JStr (categoryName st));
                        (js "description", JStr (categoryDescription st))]])]).

(** The success branch of [addCategory]. *)
Definition categoryCreated (st : State) : State :=
  let c := {| name := categoryName st; description := categoryDescription st |} in
  let st := perform [Emit "selectCategory" (JCategory c)] st in
  let st :=
    {| isOpen := isOpen st; categories := categories st ++ [c];
       selectedCategory := categoryName st; categoryName := categoryName st;
       categoryDescription := categoryDescription st;
       errorMessage := errorMessage st; effects := effects st |} in
  let st :=
    perform [Call "createDefaultFilters" [JStr (categoryName st)];
             Call "fetchCategoriesAndTotals" [];
             Call "fetchFiltersData" [JStr (categoryName st)];
             Call "fetchEmailsData" [JStr (categoryName st)]] st in
  let st := closeModal st in
  perform [DisplayPopup ok
             (t "constants.popUpConstants.successMessages.success")
             (t "constants.popUpConstants.successMessages.categoryAddedSuccess")] st.

(** [const addCategory = async () => {...}] *)
Definition addCategory (post : FetchDataResult unit) (st : State) : State :=
  if negb (isOpen st) then st
  else if falsy (trim (categoryName st)) || falsy (trim (categoryDescription st)) then
    set_errorMessage pleaseFillAllFields st
  else if (50 <? length (categoryName st))%nat then
    set_errorMessage maxNameCharacters st
  else if (300 <? length (categoryDescription st))%nat then
    set_errorMessage maxDescriptionCharacters st
  else
    let st := perform [createRequest st] st in
    match post with
    | Success _ => categoryCreated st
    | Failure e =>
        perform [DisplayPopup error
                   (t "constants.popUpConstants.errorMessages.addCategoryError")
                   (raw e)] (closeModal st)
    end.

End NewCategoryModal.

(** *** UpdateCategoryModal.vue *)
Module UpdateCategoryModal.

(** The answer of [POST get_dependencies/]. *)
Record Dependencies := { nbRules : Z; nbEmails : Z }.

(** [isOpen] and [category] are the props; the other fields are the
    refs of the component. *)
Record State := {
  isOpen : bool;
  category : option Category;
  categories : list Category;
  selectedCategory : jsstring;
  isCategoryDeletionModalOpen : bool;
  nbRulesLinked : Z;
  nbEmailsLinked : Z;
  categoryName : jsstring;
  categoryDescription : jsstring;
  errorMessage : Text;
  effects : list Effect
}.

Definition set_props (o : bool) (c : option Category) (st : State) : State :=
  {| isOpen := o; category := c; categories := categories st;
     selectedCategory := selectedCategory st;
     isCategoryDeletionModalOpen := isCategoryDeletionModalOpen st;
     nbRulesLinked := nbRulesLinked st; nbEmailsLinked := nbEmailsLinked st;
     categoryName := categoryName st;
     categoryDescription := categoryDescription st;
     errorMessage := errorMessage st; effects := effects st |}.

Definition set_categories (l : list Category) (st : State) : State :=
  {| isOpen := isOpen st; category := category st; categories := l;
     selectedCategory := selectedCategory st;
     isCategoryDeletionModalOpen := isCategoryDeletionModalOpen st;
     nbRulesLinked := nbRulesLinked st; nbEmailsLinked := nbEmailsLinked st;
     categoryName := categoryName st;
     categoryDescription := categoryDescription st;
     errorMessage := errorMessage st; effects := effects st |}.

Definition set_deletionModal (o : bool) (r e : Z) (st : State) : State :=
  {| isOpen := isOpen st; category := category st; categories := categories st;
     selectedCategory := selectedCategory st;
     isCategoryDeletionModalOpen := o;
     nbRulesLinked := r; nbEmailsLinked := e;
     categoryName := categoryName st;
     categoryDescription := categoryDescription st;
     errorMessage := errorMessage st; effects := effects st |}.

Definition set_categoryName (s : jsstring) (st : State) : State :=
  {| isOpen := isOpen st; category := category st; categories := categories st;
     selectedCategory := selectedCategory st;
     isCategoryDeletionModalOpen := isCategoryDeletionModalOpen st;
     nbRulesLinked := nbRulesLinked st; nbEmailsLinked := nbEmailsLinked st;
     categoryName := s;
     categoryDescription := categoryDescription st;
     errorMessage := errorMessage st; effects := effects st |}.

Definition set_categoryDescription (s : jsstring) (st : State) : State :=
  {| isOpen := isOpen st; category := category st; categories := categories st;
     selectedCategory := selectedCategory st;
     isCategoryDeletionModalOpen := isCategoryDeletionModalOpen st;
     nbRulesLinked := nbRulesLinked st; nbEmailsLinked := nbEmailsLinked st;
     categoryName := categoryName st;
     categoryDescription := s;
     errorMessage := errorMessage st; effects := effects st |}.

Definition set_errorMessage (m : Text) (st : State) : State :=
  {| isOpen := isOpen st; category := category st; categories := categories st;
     selectedCategory := selectedCategory st;
     isCategoryDeletionModalOpen := isCategoryDeletionModalOpen st;
     nbRulesLinked := nbRulesLinked st; nbEmailsLinked := nbEmailsLinked st;
     categoryName := categoryName st;
     categoryDescription := categoryDescription st;
     errorMessage := m; effects := effects st |}.

Definition perform (es : list Effect) (st : State) : State :=
  {| isOpen := isOpen st; category := category st; categories := categories st;
     selectedCategory := selectedCategory st;
     isCategoryDeletionModalOpen := isCategoryDeletionModalOpen st;
     nbRulesLinked := nbRulesLinked st; nbEmailsLinked := nbEmailsLinked st;
     categoryName := categoryName st;
     categoryDescription := categoryDescription st;
     errorMessage := errorMessage st; effects := effects st ++ es |}.

(** The component as it is set up: closed, no category, empty refs. *)
Definition mounted (cats : list Category) (selected : jsstring) : State :=
  {| isOpen := false; category := None; categories := cats;
     selectedCategory := selected; isCategoryDeletionModalOpen := false;
     nbRulesLinked := 0; nbEmailsLinked := 0; categoryName := [];
     categoryDescription := []; errorMessage := raw []; effects := [] |}.

(** [watch(() => props.category, (newCategory) => {...})]: a new
    category prop is copied into the two fields of the form. *)
Definition receiveProps (o : bool) (c : option Category) (st : State) : State :=
  let st := set_props o c st in
  match c with
  | Some newCategory =>
      set_categoryDescription (description newCategory)
        (set_categoryName (name newCategory) st)
  | None => st
  end.

(** [const resetForm = () => {...}] *)
Definition resetForm (st : State) : State := set_errorMessage (raw []) st.

(** [const closeModal = () => {...}] *)
Definition closeModal (st : State) : State :=
  resetForm (perform [Emit "close" JUndefined] st).

(** [props.category?.name] *)
Definition propName (st : State) : option jsstring := name <$> category st.

Definition updateRequest (st : State) : Effect :=
  PutData "update_category/"
    (JObj [(js "newCategoryName", JStr (categoryName st));
           (js "description", JStr (categoryDescription st));
           (js "categoryName", JOptStr (propName st))]).

(** The success branch of [updateCategory]. *)
Definition categoryUpdated (st : State) : State :=
  let updated :=
    {| name := categoryName st; description := categoryDescription st |} in
  let updatedCategories :=
    map (fun c => if opt_eqb (propName st) (name c) then updated else c)
        (categories st) in
  let st := set_categories updatedCategories st in
  let st :=
    perform [Call "fetchCategoriesAndTotals" [];
             Emit "selectCategory" (JCategory updated);
             Call "fetchEmailsData" [JStr (selectedCategory st)]] st in
  let st := closeModal st in
  perform [DisplayPopup ok
             (t "constants.popUpConstants.successMessages.success")
             (t "constants.popUpConstants.successMessages.updateCategorySuccess")] st.

(** [const updateCategory = async () => {...}] *)
Definition updateCategory (put : FetchDataResult unit) (st : State) : State :=
  if negb (isOpen st) then st
  else if falsy (trim (categoryName st)) || falsy (trim (categoryDescription st)) then
    set_errorMessage pleaseFillAllFields st
  else if (50 <? length (categoryName st))%nat then
    set_errorMessage maxNameCharacters st
  else if (300 <? length (categoryDescription st))%nat then
    set_errorMessage maxDescriptionCharacters st
  else
    let st := perform [updateRequest st] st in
    match put with
    | Success _ => categoryUpdated st
    | Failure e =>
        perform [DisplayPopup error
                   (t "constants.popUpConstants.errorMessages.addCategoryError")
                   (raw e)] st
    end.

Definition dependenciesRequest (st : State) : Effect :=
  PostData "get_dependencies/" (JObj [(js "categoryName", JOptStr (propName st))]).

Definition deleteRequest (st : State) : Effect :=
  DeleteData "delete_category/" (JObj [(js "categoryName", JStr (categoryName st))]).

(** [categories.value.findIndex(...)] followed by
    [categories.value.splice(index, 1)] when an index was found. *)
Definition spliceNamed (n : jsstring) (l : list Category) : list Category :=
  match list_find (fun c => name c = n) l with
  | Some (index, _) => delete index l
  | None => l
  end.

Section DefaultCategory.

(** [DEFAULT_CATEGORY] of [@/global/const]. *)
Variable DEFAULT_CATEGORY : jsstring.

(** [deleteCategory] up to its [await]: the request leaves. *)
Definition deleteCategorySend (st : State) : State :=
  perform [deleteRequest st] st.

(** [deleteCategory] from its [await] on. *)
Definition deleteCategoryAnswer (del : FetchDataResult unit) (st : State) : State :=
  match del with
  | Failure e =>
      perform [DisplayPopup error
                 (t "constants.popUpConstants.errorMessages.deleteCategoryError")
                 (raw e)] st
  | Success _ =>
      let st :=
        perform [Emit "selectCategory"
                   (JObj [(js "name", JStr DEFAULT_CATEGORY);
                          (js "description", JStr [])])] st in
      let st := set_categories (spliceNamed (categoryName st) (categories st)) st in
      perform [DisplayPopup ok
                 (t "constants.popUpConstants.successMessages.success")
                 (t "constants.popUpConstants.successMessages.deleteCategorySuccess")] st
  end.

(** [const deleteCategory = async () => {...}], the handler of the
    [deleteCategory] event of the confirmation dialog. *)
Definition deleteCategory (del : FetchDataResult unit) (st : State) : State :=
  deleteCategoryAnswer del (deleteCategorySend st).

(** [const openCategoryDeletionModal = async () => {...}]. The call
    of [deleteCategory] is not awaited: its request leaves, the form
    is closed, and its answer is handled afterwards. *)
Definition openCategoryDeletionModal (deps : FetchDataResult Dependencies)
    (del : FetchDataResult unit) (st : State) : State :=
  if negb (isOpen st) then st
  else
    let st := perform [dependenciesRequest st] st in
    match deps with
    | Failure e =>
        closeModal
          (perform [DisplayPopup error
                      (t "constants.popUpConstants.errorMessages.updateCategoryError")
                      (raw e)] st)
    | Success data =>
        if (nbRules data =? 0)%Z && (nbEmails data =? 0)%Z then
          deleteCategoryAnswer del (closeModal (deleteCategorySend st))
        else
          closeModal (set_deletionModal true (nbRules data) (nbEmails data) st)
    end.

(** [const closeCategoryDeletionModalModal = () => {...}] *)
Definition closeCategoryDeletionModalModal (st : State) : State :=
  set_deletionModal false (nbRulesLinked st) (nbEmailsLinked st) st.

End DefaultCategory.

End UpdateCategoryModal.

(** *** Categories.vue *)
Module Categories.

Section DefaultCategory.

Variable DEFAULT_CATEGORY : jsstring.

(** [v-if="category.name !== DEFAULT_CATEGORY"]: the branch of the
    tab that carries the pencil icon. *)
Definition hasUpdateIcon (c : Category) : bool :=
  negb (str_eqb (name c) DEFAULT_CATEGORY).

(** [const openUpdateModal = (category: Category) => {...}] *)
Definition openUpdateModal (c : Category) : Effect :=
  Emit "open-update-category-modal" (JCategory c).

End DefaultCategory.

End Categories.

(** *** The forms seen from outside *)

(** The three messages of the checks of the two category forms. *)
Definition validationError (m : Text) : Prop :=
  m = pleaseFillAllFields \/ m = maxNameCharacters \/ m = maxDescriptionCharacters.

(** [!s.trim()] *)
Definition blank (s : jsstring) : bool := falsy (trim s).

(** The creation form, open, with the two fields filled in. *)
Definition creationForm (n d : jsstring) : NewCategoryModal.State :=
  {| NewCategoryModal.isOpen := true;
     NewCategoryModal.categories := [];
     NewCategoryModal.selectedCategory := [];
     NewCategoryModal.categoryName := n;
     NewCategoryModal.categoryDescription := d;
     NewCategoryModal.errorMessage := raw [];
     NewCategoryModal.effects := [] |}.

(** The update form as the page opens it on [c], and the user typing
    into its two fields ([v-model]). *)
Definition updateForm (cats : list Category) (c : Category) : UpdateCategoryModal.State :=
  UpdateCategoryModal.receiveProps true (Some c)
    (UpdateCategoryModal.mounted cats (name c)).

Definition typeName (s : jsstring) (st : UpdateCategoryModal.State) :=
  UpdateCategoryModal.set_categoryName s st.

Definition typeDescription (s : jsstring) (st : UpdateCategoryModal.State) :=
  UpdateCategoryModal.set_categoryDescription s st.

(** The effects a handler of the update form added to the log. *)
Definition performed (before after : UpdateCategoryModal.State) : list Effect :=
  drop (length (UpdateCategoryModal.effects before)) (UpdateCategoryModal.effects after).

(** A request to delete the category named [n]. *)
Definition deletes (n : jsstring) : Effect :=
  DeleteData "delete_category/" (JObj [(js "categoryName", JStr n)]).

(** A request to rename the category named [n]. *)
Definition renames (n : jsstring) (e : Effect) : Prop :=
  exists newName newDescription,
    e = PutData "update_category/"
          (JObj [(js "newCategoryName", JStr newName);
                 (js "description", JStr newDescription);
                 (js "categoryName", JStr n)]).

(** Two categories and a server used as examples: [Clients] has three
    rules and twelve emails, every other category has none. *)
Definition Invoices : Category :=
  {| name := js "Invoices"; description := js "Bills to pay" |}.

Definition Clients : Category :=
  {| name := js "Clients"; description := js "Mail from clients" |}.

Definition countDependents (n : option jsstring)
    : FetchDataResult UpdateCategoryModal.Dependencies :=
  if bool_decide (n = Some (js "Clients")) then
    Success {| UpdateCategoryModal.nbRules := 3; UpdateCategoryModal.nbEmails := 12 |}
  else
    Success {| UpdateCategoryModal.nbRules := 0; UpdateCategoryModal.nbEmails := 0 |}.

End Inbox.

(** ** Settings: account page *)

Module Account.

(** [@/global/const] *)
Definition MICROSOFT : jsstring := js "microsoft".
Definition GOOGLE : jsstring := js "google".
Definition YAHOO : jsstring := js "yahoo".
Definition APPLE : jsstring := js "apple".

(** The two fields of [Plan] the page reads. *)
Record Plan := { isTrial : bool; isActive : bool }.

Record EmailLinked := { email : jsstring; typeApi_of : jsstring }.

(** The refs of the page, the session storage and the [code] parameter
    of the address. [emailsLinked] is [None] once [undefined] has been
    stored in it. *)
Record State := {
  typeApi : jsstring;
  emailsLinked : option (list EmailLinked);
  sessionStorage : gmap jsstring jsstring;
  searchCode : option jsstring;
  effects : list Effect
}.

Definition set_typeApi (p : jsstring) (st : State) : State :=
  {| typeApi := p; emailsLinked := emailsLinked st;
     sessionStorage := sessionStorage st; searchCode := searchCode st;
     effects := effects st |}.

Definition set_emailsLinked (l : option (list EmailLinked)) (st : State) : State :=
  {| typeApi := typeApi st; emailsLinked := l;
     sessionStorage := sessionStorage st; searchCode := searchCode st;
     effects := effects st |}.

Definition perform (es : list Effect) (st : State) : State :=
  {| typeApi := typeApi st; emailsLinked := emailsLinked st;
     sessionStorage := sessionStorage st; searchCode := searchCode st;
     effects := effects st ++ es |}.

(** [sessionStorage.clear()] followed by the [replaceState] that drops
    the query of the address. *)
Definition forgetAuthorization (st : State) : State :=
  {| typeApi := typeApi st; emailsLinked := emailsLinked st;
     sessionStorage := ∅; searchCode := None; effects := effects st |}.

(** [sessionStorage.getItem(k)], [null] when the key is absent. *)
Definition getItem (k : jsstring) (st : State) : Json :=
  match sessionStorage st !! k with
  | Some v => JStr v
  | None => JNull
  end.

Definition trialDenied : Effect :=
  DisplayPopup error
    (t "settingsPage.accountPage.failedToGenerateAuthURL")
    (t "settingsPage.accountPage.singleEmailTrialLinkLimit").

Definition inactiveDenied : Effect :=
  DisplayPopup error
    (t "settingsPage.accountPage.failedToGenerateAuthURL")
    (t "settingsPage.accountPage.inactiveSubscriptionLinkError").

(** The part of [authorize] after the plan checks. *)
Definition startLinking (provider : jsstring) (st : State) : State :=
  let st := set_typeApi provider st in
  if str_eqb provider MICROSOFT || str_eqb provider GOOGLE then
    perform [Call "openAddUserDescriptionModal" []] st
  else st.

(** [function authorize(provider: string)]. [userPlan] is [None] when
    the injected ref or its value is missing. *)
Definition authorize (userPlan : option Plan) (provider : jsstring) (st : State) : State :=
  match userPlan with
  | Some plan =>
      if isTrial plan then perform [trialDenied] st
      else if negb (isActive plan) then perform [inactiveDenied] st
      else startLinking provider st
  | None => startLinking provider st
  end.

(** [async function fetchEmailLinked()]: the result object is never
    falsy, so its [data] is stored whatever the outcome. *)
Definition fetchEmailLinked (get : FetchDataResult (list EmailLinked)) (st : State) : State :=
  let st := perform [GetData "user/emails_linked/"] st in
  match get with
  | Success data => set_emailsLinked (Some data) st
  | Failure _ => set_emailsLinked None st
  end.

Definition linkRequest (authorizationCode : jsstring) (st : State) : Effect :=
  PostData "user/social_api/link/"
    (JObj [(js "code", JStr authorizationCode);
           (js "typeApi", getItem (js "typeApi") st);
           (js "userDescription", getItem (js "userDescription") st)]).

(** [async function linkEmail(authorizationCode, regrantConsent?)] *)
Definition linkEmail (authorizationCode : jsstring) (regrantConsent : option bool)
    (post : FetchDataResult unit) (get : FetchDataResult (list EmailLinked))
    (st : State) : State :=
  let st := perform [linkRequest authorizationCode st] st in
  let st :=
    match post with
    | Failure e =>
        perform [DisplayPopup error
                   (t "settingsPage.accountPage.emailLinkingFailure") (raw e)] st
    | Success _ =>
        let st := fetchEmailLinked get st in
        if default false regrantConsent then
          perform [DisplayPopup ok
                     (t "constants.popUpConstants.successMessages.success")
                     (t "settingsPage.accountPage.connectionReestablishedSuccess")] st
        else
          perform [DisplayPopup ok
                     (t "constants.popUpConstants.successMessages.success")
                     (t "settingsPage.accountPage.emailLinkedSuccess")] st
    end in
  forgetAuthorization st.

(** [function checkAuthorizationCode()] *)
Definition checkAuthorizationCode (post : FetchDataResult unit)
    (get : FetchDataResult (list EmailLinked)) (st : State) : State :=
  match searchCode st with
  | Some authorizationCode =>
      if falsy authorizationCode then st
      else if bool_decide (sessionStorage st !! js "regrantConsent" = Some (js "true")) then
        linkEmail authorizationCode (Some true) post get st
      else
        linkEmail authorizationCode None post get st
  | None => st
  end.

(** The effects a handler added to the log. *)
Definition performed (before after : State) : list Effect :=
  drop (length (effects before)) (effects after).

(** The page before anything was done on it. *)
Definition mounted : State :=
  {| typeApi := []; emailsLinked := Some []; sessionStorage := ∅;
     searchCode := None; effects := [] |}.

End Account.

(** ** Account-link endpoint *)

Module LinkEndpoint.

(** Modelled from the spec: the Linked Mailbox of the data model,
    [{email, providerType: enum{google, microsoft, yahoo, apple}}],
    together with the token state a re-authorization updates. The server
    code that stores it is not among the sources. *)
Inductive ProviderType := google | microsoft | yahoo | apple.

#[global] Instance ProviderType_eq_dec : EqDecision ProviderType.
Proof. solve_decision. Defined.

Record LinkedMailbox := {
  email : jsstring;
  providerType : ProviderType;
  tokenState : jsstring
}.

(** The key of the uniqueness invariant. *)
Definition sameMailbox (e : jsstring) (p : ProviderType) (m : LinkedMailbox) : bool :=
  bool_decide (email m = e) && bool_decide (providerType m = p).

(** Number of entries of the user for the pair. *)
Definition entriesFor (e : jsstring) (p : ProviderType) (l : list LinkedMailbox) : nat :=
  length (List.filter (sameMailbox e p) l).

(** The mailbox of the pair takes the new token state, the others are
    left as they are. *)
Definition refreshToken (e : jsstring) (p : ProviderType) (token : jsstring)
    (m : LinkedMailbox) : LinkedMailbox :=
  if sameMailbox e p m then
    {| email := email m; providerType := providerType m; tokenState := token |}
  else m.

(** Modelled from the spec: the handler of [user/social_api/link/] is
    server code and is not among the sources. [exchangeCode(code,
    providerType, consentRegrant) -> LinkedMailbox | Error]: creation
    requires a successful authorization-code exchange (the provider's
    answer is [oauth]: the account and its token, or the provider's
    error message, surfaced verbatim); the mailboxes of a user are unique
    on [(email, providerType)]; with [consentRegrant] an already linked
    mailbox has its token state updated and no mailbox is created.
    Without [consentRegrant] an already linked mailbox is refused, the
    uniqueness invariant forbidding a second entry. *)
Definition exchangeCode
    (oauth : ProviderType -> jsstring -> FetchDataResult (jsstring * jsstring))
    (code : jsstring) (p : ProviderType) (consentRegrant : bool)
    (mailboxes : list LinkedMailbox)
    : FetchDataResult LinkedMailbox * list LinkedMailbox :=
  match oauth p code with
  | Failure message => (Failure message, mailboxes)
  | Success (e, token) =>
      let mailbox := {| email := e; providerType := p; tokenState := token |} in
      if existsb (sameMailbox e p) mailboxes then
        if consentRegrant then
          (Success mailbox, map (refreshToken e p token) mailboxes)
        else
          (Failure (js "mailbox already linked"), mailboxes)
      else
        (Success mailbox, mailboxes ++ [mailbox])
  end.

(** A provider and a user used as examples: one authorization code is
    valid, and the account it belongs to is linked at Google and at
    Microsoft. *)
Definition oneCode (p : ProviderType) (code : jsstring)
    : FetchDataResult (jsstring * jsstring) :=
  if bool_decide (code = js "4/0AfJohXk") then
    Success (js "ada@example.org", js "token-2")
  else Failure (js "invalid_grant").

Definition adaLinked : list LinkedMailbox :=
  [ {| email := js "ada@example.org"; providerType := google;
       tokenState := js "token-1" |};
    {| email := js "ada@example.org"; providerType := microsoft;
       tokenState := js "token-0" |} ].

End LinkEndpoint.

(** ** Keyboard handling of the two category forms *)

Module FormKeys.
Import Inbox.

(** The two fields of a [KeyboardEvent] the handlers read. *)
Record KeyboardEvent := { key : jsstring; shiftKey : bool }.

(** [document.activeElement] as far as the handlers tell: the name
    input, the description input, or anything else. *)
Inductive Focus := NameField | DescriptionField | Elsewhere.

Definition preventDefault : Effect := Call "event.preventDefault" [].

(** The [Tab] branch: the element the handler calls [focus()] on, given
    the two fields and the focused element. *)
Definition tabTarget (n d : jsstring) (target : Focus) : Focus :=
  if falsy n then NameField
  else if falsy d then DescriptionField
  else match target with
       | DescriptionField => NameField
       | _ => DescriptionField
       end.

(** [element?.focus()]: the two inputs are inside [v-if="props.isOpen"],
    so [getElementById] finds them only while the form is open. *)
Definition focusIfRendered (open : bool) (wanted current : Focus) : Focus :=
  if open then wanted else current.

(** [handleKeyDown] of NewCategoryModal.vue, bound to [document]. *)
Definition newHandleKeyDown (event : KeyboardEvent) (post : FetchDataResult unit)
    (s : NewCategoryModal.State * Focus) : NewCategoryModal.State * Focus :=
  let (st, focus) := s in
  if str_eqb (key event) (js "Enter") && negb (shiftKey event) then
    (NewCategoryModal.addCategory post
       (NewCategoryModal.perform [preventDefault] st), focus)
  else if str_eqb (key event) (js "Escape") then
    (NewCategoryModal.closeModal (NewCategoryModal.perform [preventDefault] st), focus)
  else if str_eqb (key event) (js "Tab") then
    (NewCategoryModal.perform [preventDefault] st,
     focusIfRendered (NewCategoryModal.isOpen st)
       (tabTarget (NewCategoryModal.categoryName st)
                  (NewCategoryModal.categoryDescription st) focus) focus)
  else s.

(** [handleKeyDown] of the update form, bound to [document]. *)
Definition updateHandleKeyDown (event : KeyboardEvent) (put : FetchDataResult unit)
    (s : UpdateCategoryModal.State * Focus) : UpdateCategoryModal.State * Focus :=
  let (st, focus) := s in
  if str_eqb (key event) (js "Enter") && negb (shiftKey event) then
    (UpdateCategoryModal.updateCategory put
       (UpdateCategoryModal.perform [preventDefault] st), focus)
  else if str_eqb (key event) (js "Escape") then
    (UpdateCategoryModal.closeModal
       (UpdateCategoryModal.perform [preventDefault] st), focus)
  else if str_eqb (key event) (js "Tab") then
    (UpdateCategoryModal.perform [preventDefault] st,
     focusIfRendered (UpdateCategoryModal.isOpen st)
       (tabTarget (UpdateCategoryModal.categoryName st)
                  (UpdateCategoryModal.categoryDescription st) focus) focus)
  else s.

Definition tab : KeyboardEvent := {| key := js "Tab"; shiftKey := false |}.
Definition enter : KeyboardEvent := {| key := js "Enter"; shiftKey := false |}.
Definition escape : KeyboardEvent := {| key := js "Escape"; shiftKey := false |}.

(** Every code unit of the string is white space. *)
Definition whiteSpaceOnly (s : jsstring) : Prop := Forall (fun c => isWhiteSpace c = true) s.

(** The names of a list of categories. *)
Definition names (l : list Category) : list jsstring := map name l.

End FormKeys.

(** ** Password reset form *)

Module PasswordReset.

(** What the [fetch] of [resetPassword] comes to: a response that is
    [ok], a response that is not, with the [error] field of its body, or
    an exception, with its message. *)
Inductive Response :=
| ResponseOk
| ResponseError (error : option jsstring)
| Thrown (message : jsstring).

Record State := {
  password : jsstring;
  confirmPassword : jsstring;
  uidb64 : jsstring;
  token : jsstring;
  showPassword : bool;
  showConfirmPassword : bool;
  effects : list Effect
}.

Definition perform (es : list Effect) (st : State) : State :=
  {| password := password st; confirmPassword := confirmPassword st;
     uidb64 := uidb64 st; token := token st; showPassword := showPassword st;
     showConfirmPassword := showConfirmPassword st;
     effects := effects st ++ es |}.

(** [function displayPopup(type, title, message)] of the form: the
    notification, then the timer that dismisses it. *)
Definition displayPopup (type : PopupType) (title message : Text) : list Effect :=
  [DisplayPopup type title message; Call "setTimeout(dismissPopup, 4000)" []].

Definition invalidInput : Text := t "passwordReset.invalidInput".
Definition genericError : Text := t "passwordReset.genericError".

(** [s || i18n.global.t("passwordReset.genericError")] *)
Definition orGeneric (s : option jsstring) : Text :=
  match s with
  | Some e => if falsy e then genericError else raw e
  | None => genericError
  end.

Section Constants.

(** [PASSWORD_MIN_LENGTH], [PASSWORD_MAX_LENGTH] and [API_BASE_URL] of
    [@/global/const]. *)
Variable PASSWORD_MIN_LENGTH PASSWORD_MAX_LENGTH : nat.
Variable API_BASE_URL : jsstring.

Definition resetUrl (st : State) : jsstring :=
  API_BASE_URL ++ js "reset_password/" ++ uidb64 st ++ js "/" ++ token st ++ js "/".

Definition resetRequest (st : State) : Effect :=
  Call "fetch"
    [JStr (resetUrl st);
     JObj [(js "method", JStr (js "POST"));
           (js "headers", JObj [(js "Content-Type", JStr (js "application/json"))]);
           (js "body", JObj [(js "password", JStr (password st))])]].

(** [async function resetPassword()] *)
Definition resetPassword (response : Response) (st : State) : State :=
  if (length (password st) <? PASSWORD_MIN_LENGTH)%nat
     || (PASSWORD_MAX_LENGTH <? length (password st))%nat then
    perform (displayPopup error invalidInput (t "passwordReset.passwordLengthError")) st
  else if negb (str_eqb (password st) (confirmPassword st)) then
    perform (displayPopup error invalidInput (t "passwordReset.passwordsDoNotMatch")) st
  else
    let st := perform [resetRequest st] st in
    match response with
    | ResponseOk =>
        perform (displayPopup ok (t "constants.successMessages.success")
                   (t "passwordReset.resetSuccessful")
                 ++ [Call "setTimeout(router.push({ name: 'login' }), 3000)" []]) st
    | ResponseError e => perform (displayPopup error invalidInput (orGeneric e)) st
    | Thrown message => perform (displayPopup error invalidInput (orGeneric (Some message))) st
    end.

End Constants.

(** The effects a handler added to the log. *)
Definition performed (before after : State) : list Effect :=
  drop (length (effects before)) (effects after).

(** The form with both fields typed in. *)
Definition typed (pw confirm : jsstring) : State :=
  {| password := pw; confirmPassword := confirm; uidb64 := js "MQ";
     token := js "c1-abc"; showPassword := false; showConfirmPassword := false;
     effects := [] |}.

End PasswordReset.

(** ** User preferences *)

Module Preferences.

(** [@/global/const] *)
Definition ALLOWED_THEMES : list jsstring := [js "light"; js "dark"].
Definition ALLOWED_LANGUAGES : list jsstring :=
  [js "french"; js "american"; js "german"; js "russian"; js "spanish";
   js "chinese"; js "indian"].

(** [url.split("?")[0]] *)
Fixpoint beforeQuery (url : jsstring) : jsstring :=
  match url with
  | [] => []
  | c :: rest => if (c =? 63)%N then [] else c :: beforeQuery rest
  end.

(** [list.includes(s)] on an array of strings. *)
Definition arrayIncludes (l : list jsstring) (s : jsstring) : bool :=
  existsb (str_eqb s) l.

Section Environment.

(** [process.env.VUE_APP_ENV] *)
Variable VUE_APP_ENV : jsstring.

Definition BASE_URL : jsstring := js "https://" ++ VUE_APP_ENV ++ js ".aomail.ai/".

Definition UNAUTHENTICATED_URLS : list jsstring :=
  [ BASE_URL;
    BASE_URL ++ js "signup";
    BASE_URL ++ js "signup-link";
    BASE_URL ++ js "password-reset-link";
    BASE_URL ++ js "reset-password-form" ].

(** [const isUnAuthenticatedUrl = (url: string) => {...}] *)
Definition isUnAuthenticatedUrl (url : jsstring) : bool :=
  existsb (fun baseUrl => str_eqb (beforeQuery url) baseUrl) UNAUTHENTICATED_URLS.

End Environment.

(** The local storage and the log of the requests. *)
Record Store := {
  localStorage : gmap jsstring jsstring;
  requests : list Effect
}.

(** [const fetchUserPreference = async (endpoint, key, allowedValues?)].
    The answer of the server is given by [result.data[key]]: [None] when
    the field is [undefined], a [JStr] when it is a string. The value
    returned is [None] for [null]. *)
Definition fetchUserPreference (endpoint : string) (key : jsstring)
    (allowedValues : option (list jsstring))
    (result : FetchDataResult (option Json)) (st : Store)
    : option jsstring * Store :=
  let fetched :=
    let st := {| localStorage := localStorage st;
                 requests := requests st ++ [GetData endpoint] |} in
    match result with
    | Failure _ => (None, st)
    | Success (Some (JStr value)) =>
        (Some value,
         {| localStorage := <[key := value]> (localStorage st);
            requests := requests st |})
    | Success _ => (None, st)
    end in
  match localStorage st !! key with
  | Some storedValue =>
      if negb (falsy storedValue)
         && match allowedValues with
            | Some allowed => arrayIncludes allowed storedValue
            | None => false
            end
      then (Some storedValue, st)
      else fetched
  | None => fetched
  end.

(** The refs of the module, the locale of [i18n] and the store. *)
Record State := {
  languageSelected : jsstring;
  locale : jsstring;
  themeSelected : jsstring;
  timezoneSelected : jsstring;
  store : Store
}.

(** The refs as the module initialises them; the locale is the selected
    language. *)
Definition initial (st : Store) : State :=
  {| languageSelected := js "american"; locale := js "american";
     themeSelected := js "light"; timezoneSelected := js "UTC"; store := st |}.

(** [if (value) { ... }]: [null] and the empty string are falsy. *)
Definition truthy (o : option jsstring) : option jsstring :=
  match o with
  | Some v => if falsy v then None else Some v
  | None => None
  end.

Section Environment.

Variable VUE_APP_ENV : jsstring.

(** [export const initializePreferences = async (i18n: I18n) => {...}],
    with the address of the window and the three answers of the server. *)
Definition initializePreferences (currentUrl : jsstring)
    (language theme timezone : FetchDataResult (option Json)) (st : State) : State :=
  if isUnAuthenticatedUrl VUE_APP_ENV currentUrl then st
  else
    let (l, s1) :=
      fetchUserPreference "user/preferences/language/" (js "language")
        (Some ALLOWED_LANGUAGES) language (store st) in
    let (th, s2) :=
      fetchUserPreference "user/preferences/theme/" (js "theme")
        (Some ALLOWED_THEMES) theme s1 in
    let (tz, s3) :=
      fetchUserPreference "user/preferences/timezone/" (js "timezone")
        None timezone s2 in
    {| languageSelected := default (languageSelected st) (truthy l);
       locale := default (locale st) (truthy l);
       themeSelected := default (themeSelected st) (truthy th);
       timezoneSelected := default (timezoneSelected st) (truthy tz);
       store := s3 |}.

End Environment.

Definition emptyStore : Store := {| localStorage := ∅; requests := [] |}.

End Preferences.

(** * Properties *)

(** ** JavaScript strings *)

Module JSFacts.

Lemma startsWith_app (hay needle : jsstring) :
  startsWith hay needle = true <-> exists rest, hay = needle ++ rest.
Proof.
  revert hay. induction needle as [|n ns IH]; intros hay; simpl.
  - split; [intros _; now exists hay | reflexivity].
  - destruct hay as [|h hs].
    + split; [discriminate | intros [rest H]; discriminate].
    + rewrite andb_true_iff, bool_decide_eq_true, IH. split.
      * intros [-> [rest ->]]. now exists rest.
      * intros [rest H]. injection H as -> ->. split; [reflexivity | now exists rest].
Qed.

Lemma includes_occurs (hay needle : jsstring) :
  includes hay needle = true <-> exists before after, hay = before ++ needle ++ after.
Proof.
  induction hay as [|h hs IH].
  - cbn [includes]. rewrite orb_false_r, startsWith_app. split.
    + intros [rest H]. now exists [], rest.
    + intros [before [after H]]. symmetry in H.
      apply app_eq_nil in H as [-> H]. apply app_eq_nil in H as [-> ->].
      now exists [].
  - cbn [includes]. rewrite orb_true_iff, startsWith_app, IH. split.
    + intros [[rest H] | [before [after H]]].
      * now exists [], rest.
      * exists (h :: before), after. now rewrite H.
    + intros [[|b before] [after H]].
      * left. now exists after.
      * right. injection H as -> ->. now exists before, after.
Qed.

(** Every part is written out in the joined string. *)
Lemma join_lists (sep part : jsstring) (parts : list jsstring) :
  In part parts -> exists before after, join sep parts = before ++ part ++ after.
Proof.
  induction parts as [|p ps IH]; [intros [] |].
  intros [-> | H].
  - destruct ps as [|q ps].
    + exists [], []. cbn. now rewrite app_nil_r.
    + exists [], (sep ++ join sep (q :: ps)). reflexivity.
  - destruct ps as [|q ps]; [destruct H |].
    destruct (IH H) as [before [after E]].
    exists (p ++ sep ++ before), after.
    change (join sep (p :: q :: ps)) with (p ++ sep ++ join sep (q :: ps)).
    rewrite E. now rewrite <- !app_assoc.
Qed.

(** A string never has more characters than code units. *)
Lemma characters_le_length (s : jsstring) : (characters s <= length s)%nat.
Proof.
  assert (H : forall n s, (length s <= n)%nat -> (characters s <= length s)%nat).
  { induction n as [|n IH]; intros [|c [|d rest]] Hl;
      try (cbn [characters length] in *; lia).
    change (characters (c :: d :: rest))
      with (if isHighSurrogate c && isLowSurrogate d then S (characters rest)
            else S (characters (d :: rest))).
    cbn [length] in *.
    destruct (isHighSurrogate c && isLowSurrogate d).
    - assert (Hr : (length rest <= n)%nat) by lia.
      specialize (IH rest Hr). lia.
    - assert (Hr : (length (d :: rest) <= n)%nat) by (cbn [length]; lia).
      specialize (IH (d :: rest) Hr). cbn [length] in IH. lia. }
  apply (H (length s)). lia.
Qed.

End JSFacts.

(** ** Prompt customisation page *)

Module PromptCustomization.
Import LLM.

(** Case analysis on the six providers of the catalog. *)
Ltac catalog H :=
  cbn [In llmProviderOptions] in H;
  repeat (destruct H as [<- | H]); [.. | contradiction].

Lemma catalog_not_empty (p : LLMProvider) :
  In p llmProviderOptions -> exists m, firstModel p = Some m /\ In m (models p).
Proof.
  intros H. catalog H; (eexists; split; [reflexivity | left; reflexivity]).
Qed.

(** Provider names identify the entries of the catalog, so the computed
    list of models is the list of the selected provider. *)
Lemma llmModelOptions_selected (p : LLMProvider) (st : State) :
  llmProvider st = Some p -> In p llmProviderOptions ->
  llmModelOptions st = models p.
Proof.
  unfold llmModelOptions. intros -> H. catalog H; reflexivity.
Qed.

Lemma find_provider_catalog (o : option jsstring) :
  In (default firstProvider
        (find (fun p => opt_eqb o (provider p)) llmProviderOptions))
     llmProviderOptions.
Proof.
  destruct (find _ _) as [p|] eqn:E.
  - apply find_some in E. apply E.
  - left. reflexivity.
Qed.

Lemma consistent_initial : consistent initial.
Proof.
  exists firstProvider. split; [reflexivity |]. split; [left; reflexivity |].
  eexists. split; [reflexivity | left; reflexivity].
Qed.

(** The handlers that store a selection store a consistent one, whatever
    the refs held before: a selection in the provider drop-down, a fetch
    of the stored settings that succeeds, and a reset. *)
Lemma consistent_selectProvider (p : LLMProvider) (st : State) :
  In p llmProviderOptions -> consistent (selectProvider p st).
Proof.
  intros H. exists p. split; [reflexivity |]. split; [exact H |].
  destruct (catalog_not_empty p H) as [m [E Hm]].
  exists m. split; [exact E | exact Hm].
Qed.

Lemma consistent_selectModel (m : LLMModel) (st : State) :
  consistent st -> In m (llmModelOptions st) -> consistent (selectModel m st).
Proof.
  intros [p [Ep [Hp _]]] Hm. exists p. split; [exact Ep |]. split; [exact Hp |].
  exists m. split; [reflexivity |].
  rewrite (llmModelOptions_selected p st Ep Hp) in Hm. exact Hm.
Qed.

Lemma consistent_fetchLLMSettings (data : LLMSettings) (st : State) :
  consistent (fetchLLMSettings (Success data) st).
Proof.
  unfold fetchLLMSettings.
  set (p := default firstProvider _).
  assert (Hp : In p llmProviderOptions) by apply find_provider_catalog.
  set (st1 := set_llmProvider (Some p) _).
  exists p. split; [reflexivity |]. split; [exact Hp |].
  cbn [llmModel set_customizablePrompts set_llmModel].
  rewrite (llmModelOptions_selected p st1 eq_refl Hp).
  destruct (find _ (models p)) as [m|] eqn:E.
  - exists m. split; [reflexivity |]. apply find_some in E. apply E.
  - destruct (catalog_not_empty _ Hp) as [m [E' Hm]]. now exists m.
Qed.

Lemma consistent_resetToDefault (del : FetchDataResult unit)
    (get : FetchDataResult LLMSettings) (st : State) :
  consistent (resetToDefault del get st).
Proof.
  unfold resetToDefault. destruct del as [[]|e]; [| exact consistent_initial].
  destruct get as [data|e]; [apply consistent_fetchLLMSettings | exact consistent_initial].
Qed.

(** C1. Choosing a provider of the catalog in the provider drop-down
    leaves that provider selected and resets the selected model to the
    first entry of its model list; for the provider named mistral that
    model is ministral-8b-latest. *)
Theorem selectProvider_first_model (p : LLMProvider) (st : State) :
  In p llmProviderOptions ->
  exists m, models p !! 0%nat = Some m
    /\ llmProvider (selectProvider p st) = Some p
    /\ llmModel (selectProvider p st) = Some m
    /\ (provider p = js "mistral" -> name m = js "ministral-8b-latest").
Proof.
  intros H.
  catalog H;
    (eexists; split; [reflexivity | split; [reflexivity | split; [reflexivity |]]]);
    first [ reflexivity | intros E; vm_compute in E; discriminate E ].
Qed.

Lemma selectProvider_first_model_witness :
  In mistral llmProviderOptions /\
  exists m, models mistral !! 0%nat = Some m
    /\ llmProvider (selectProvider mistral initial) = Some mistral
    /\ llmModel (selectProvider mistral initial) = Some m
    /\ (provider mistral = js "mistral" -> name m = js "ministral-8b-latest").
Proof.
  assert (H : In mistral llmProviderOptions) by (simpl; tauto).
  split; [exact H | exact (selectProvider_first_model mistral initial H)].
Defined.

(** C6, where the code departs from it. Neither drop-down forbids an
    empty selection. From the initial refs the user picks mistral, then
    its model mistral-small-latest, then clicks mistral, the selected
    option, once more: the provider ref is emptied, [changeProvider] does
    not run, and the model ref keeps mistral-small-latest, a model that
    now belongs to the list of no selected provider. A fetch of the
    stored settings that fails leaves the refs so, and saving is a
    [TypeError] that sends nothing. What restores the invariant from
    there is a selection in the provider drop-down, a fetch that
    succeeds, or a reset. *)
Theorem deselected_provider_keeps_model :
  let st1 := run (ClickProvider mistral) initial in
  let st2 := run (ClickModel mistralSmall) st1 in
  let st3 := run (ClickProvider mistral) st2 in
  offered (ClickProvider mistral) initial
  /\ offered (ClickModel mistralSmall) st1
  /\ offered (ClickProvider mistral) st2
  /\ reachable st3
  /\ (llmProvider st1 = Some mistral /\ llmModel st1 = Some ministral8b)
  /\ (llmProvider st2 = Some mistral /\ llmModel st2 = Some mistralSmall)
  /\ (llmProvider st3 = None /\ llmModel st3 = Some mistralSmall)
  /\ name mistralSmall = js "mistral-small-latest"
  /\ performed initial st3 = []
  /\ ~ consistent st3
  /\ (forall e,
        llmProvider (fetchLLMSettings (Failure e) st3) = None
        /\ llmModel (fetchLLMSettings (Failure e) st3) = Some mistralSmall)
  /\ (forall put get, saveLLMSettings put get st3 = perform [TypeError] st3)
  /\ (forall data, consistent (fetchLLMSettings (Success data) st3))
  /\ (forall del get, consistent (resetToDefault del get st3))
  /\ Forall (fun p => consistent (selectProvider p st3)) llmProviderOptions.
Proof.
  intros st1 st2 st3.
  assert (O1 : offered (ClickProvider mistral) initial) by (simpl; tauto).
  assert (O2 : offered (ClickModel mistralSmall) st1) by (right; left; reflexivity).
  assert (O3 : offered (ClickProvider mistral) st2) by (simpl; tauto).
  split; [exact O1 |]. split; [exact O2 |]. split; [exact O3 |].
  split.
  { apply reachable_run; [| exact O3]. apply reachable_run; [| exact O2].
    apply reachable_run; [exact reachable_initial | exact O1]. }
  split; [split; reflexivity |]. split; [split; reflexivity |].
  split; [split; reflexivity |]. split; [reflexivity |]. split; [reflexivity |].
  split; [intros [p [E _]]; discriminate E |].
  split; [intros e; split; reflexivity |].
  split; [intros put get; reflexivity |].
  split; [intros data; apply consistent_fetchLLMSettings |].
  split; [intros del get; apply consistent_resetToDefault |].
  apply List.Forall_forall. intros p Hp. now apply consistent_selectProvider.
Qed.

Lemma performed_perform (es : list Effect) (st : State) :
  performed st (perform es st) = es.
Proof. unfold performed. cbn [effects perform]. apply drop_app_length. Qed.

Lemma missingVariables_spec (promptData : Prompt) (body v : jsstring) :
  In v (missingVariables promptData body) <->
  In v (variables promptData) /\ ~ occursIn (placeholder v) body.
Proof.
  unfold missingVariables, occursIn.
  rewrite filter_In, negb_true_iff, <- JSFacts.includes_occurs.
  now rewrite not_true_iff_false.
Qed.

Lemma missingVariables_nil (promptData : Prompt) (body : jsstring) :
  missingVariables promptData body = [] <-> allPresent promptData body.
Proof.
  split.
  - intros E v Hv. apply JSFacts.includes_occurs.
    destruct (includes body (placeholder v)) eqn:Hi; [reflexivity |].
    assert (Hm : In v (missingVariables promptData body)).
    { apply missingVariables_spec. split; [exact Hv |].
      unfold occursIn. rewrite <- JSFacts.includes_occurs. congruence. }
    rewrite E in Hm. contradiction.
  - intros Hall. destruct (missingVariables promptData body) as [|v l] eqn:E;
      [reflexivity |].
    assert (Hm : In v (missingVariables promptData body)) by (rewrite E; now left).
    apply missingVariables_spec in Hm as [Hv Hn]. contradiction (Hn (Hall v Hv)).
Qed.

Lemma savePrompt_selected (put : FetchDataResult unit) (st : State)
    (k : jsstring) (promptData : Prompt) :
  editingPrompt st = Some k -> k <> [] ->
  customizablePrompts st !! k = Some promptData ->
  savePrompt put st =
    match missingVariables promptData (promptInput st) with
    | [] => perform [savePromptRequest k (promptInput st); savePromptAnswer put] st
    | (_ :: _) as missing => perform [missingVariablesPopup missing] st
    end.
Proof.
  intros Hk Hne Hp. unfold savePrompt. rewrite Hk.
  destruct k as [|c k]; [contradiction |]. cbn [falsy]. rewrite Hp.
  destruct (missingVariables _ _); reflexivity.
Qed.

(** The placeholder of a variable, written out. *)
Lemma placeholder_occurs (v body : jsstring) :
  occursIn (placeholder v) body <->
  exists before after, body = before ++ js "{" ++ v ++ js "}" ++ after.
Proof.
  unfold occursIn, placeholder.
  split; intros [b [a E]]; exists b, a; rewrite E; now rewrite <- !app_assoc.
Qed.

(** C3. With a template selected, [savePrompt] sends the save request,
    the body stored under the key of the template, exactly when every
    required variable [v] occurs in the body as the substring made of an
    opening brace, [v] and a closing brace; the answer of the server is
    then displayed, and the prompt is reported saved exactly when the
    check passes and the server accepts the request. Otherwise nothing
    is sent and the one effect is the error pop-up whose [variables]
    parameter is the comma-separated list of the missing variables: the
    list holds all the required variables whose placeholder the body
    lacks, and no other, and each of them is written out in the
    parameter. *)
Theorem savePrompt_required_variables (put : FetchDataResult unit) (st : State)
    (k : jsstring) (promptData : Prompt) :
  editingPrompt st = Some k -> k <> [] ->
  customizablePrompts st !! k = Some promptData ->
  let body := promptInput st in
  let present (v : jsstring) : Prop :=
    exists before after, body = before ++ js "{" ++ v ++ js "}" ++ after in
  let complete : Prop := forall v, In v (variables promptData) -> present v in
  let request :=
    PutData "user/preferences/llm_settings/" (JObj [(k, JStr body)]) in
  let saved :=
    DisplayPopup ok
      (t "constants.popUpConstants.successMessages.promptSaved")
      (t "constants.popUpConstants.successMessages.promptSavedDesc") in
  let new := performed st (savePrompt put st) in
  (In request new <-> complete)
  /\ (complete ->
      new = [request;
             match put with
             | Success _ => saved
             | Failure e =>
                 DisplayPopup error
                   (t "constants.popUpConstants.errorMessages.savePromptError")
                   (raw e)
             end])
  /\ (~ complete ->
      exists missing,
        missing <> []
        /\ (forall v, In v missing <-> In v (variables promptData) /\ ~ present v)
        /\ new =
             [DisplayPopup error
                (t "constants.popUpConstants.errorMessages.missingVariables")
                (tWith "constants.popUpConstants.errorMessages.missingVariablesDesc"
                   [("variables"%string, join (js ", ") missing)])]
        /\ (forall v, In v missing ->
              exists before after, join (js ", ") missing = before ++ v ++ after))
  /\ (In saved new <-> complete /\ success put = true).
Proof.
  intros Hk Hne Hp body present complete request saved new.
  assert (Hall : complete <-> allPresent promptData body).
  { unfold complete, allPresent, present.
    split; intros H v Hv; apply placeholder_occurs, H, Hv. }
  assert (Hnil : missingVariables promptData body = [] <-> complete).
  { rewrite Hall. apply missingVariables_nil. }
  assert (Hnew : new =
            match missingVariables promptData body with
            | [] => [savePromptRequest k body; savePromptAnswer put]
            | (_ :: _) as missing => [missingVariablesPopup missing]
            end).
  { subst new. rewrite (savePrompt_selected put st k promptData Hk Hne Hp).
    fold body. destruct (missingVariables promptData body); apply performed_perform. }
  clearbody new. subst new request saved.
  destruct (missingVariables promptData body) as [|v0 l] eqn:Em.
  - assert (Hc : complete) by now apply Hnil.
    split; [split; [intros _; exact Hc | intros _; left; reflexivity] |].
    split; [intros _; destruct put; reflexivity |].
    split; [intros Hn; contradiction (Hn Hc) |].
    split.
    + intros [H | [H | []]]; [discriminate H |].
      split; [exact Hc |]. destruct put; [reflexivity | discriminate H].
    + intros [_ Hs]. destruct put; [right; left; reflexivity | discriminate Hs].
  - assert (Hc : ~ complete) by (intros H; apply Hnil in H; discriminate H).
    split; [split; [intros [H | []]; discriminate H | intros H; contradiction (Hc H)] |].
    split; [intros H; contradiction (Hc H) |].
    split; [| split; [intros [H | []]; discriminate H | intros [H _]; contradiction (Hc H)]].
    intros _. exists (v0 :: l). split; [discriminate |].
    split; [| split; [reflexivity |]].
    + intros v. rewrite <- Em, missingVariables_spec.
      split; intros [H1 H2]; (split; [exact H1 |]); intros H; apply H2;
        now apply placeholder_occurs.
    + intros v Hv. now apply JSFacts.join_lists.
Qed.

Lemma savePrompt_required_variables_witness :
  let st := editing (js "Summarize {subject}") in
  let k := js "summary" in
  editingPrompt st = Some k /\ k <> [] /\
  customizablePrompts st !! k = Some summaryPrompt /\
  let body := promptInput st in
  let present (v : jsstring) : Prop :=
    exists before after, body = before ++ js "{" ++ v ++ js "}" ++ after in
  let complete : Prop := forall v, In v (variables summaryPrompt) -> present v in
  let request :=
    PutData "user/preferences/llm_settings/" (JObj [(k, JStr body)]) in
  let saved :=
    DisplayPopup ok
      (t "constants.popUpConstants.successMessages.promptSaved")
      (t "constants.popUpConstants.successMessages.promptSavedDesc") in
  let new := performed st (savePrompt (Success ()) st) in
  (In request new <-> complete)
  /\ (complete -> new = [request; saved])
  /\ (~ complete ->
      exists missing,
        missing <> []
        /\ (forall v, In v missing <-> In v (variables summaryPrompt) /\ ~ present v)
        /\ new =
             [DisplayPopup error
                (t "constants.popUpConstants.errorMessages.missingVariables")
                (tWith "constants.popUpConstants.errorMessages.missingVariablesDesc"
                   [("variables"%string, join (js ", ") missing)])]
        /\ (forall v, In v missing ->
              exists before after, join (js ", ") missing = before ++ v ++ after))
  /\ (In saved new <-> complete /\ success (Success ()) = true).
Proof.
  intros st k.
  assert (H1 : editingPrompt st = Some k) by reflexivity.
  assert (H2 : k <> []) by (vm_compute; discriminate).
  assert (H3 : customizablePrompts st !! k = Some summaryPrompt)
    by (vm_compute; reflexivity).
  split; [exact H1 |]. split; [exact H2 |]. split; [exact H3 |].
  exact (savePrompt_required_variables (Success ()) st k summaryPrompt H1 H2 H3).
Defined.

(** The two examples of the specification: the body that names both
    variables is sent and reported saved; the body that names only
    [subject] is refused and the pop-up lists [sender]. *)
Example savePrompt_both_present :
  let st := editing (js "Summarize {subject} from {sender}") in
  savePrompt (Success ()) st =
    perform [savePromptRequest (js "summary") (promptInput st); promptSaved] st.
Proof.
  intros st.
  rewrite (savePrompt_selected (Success ()) st (js "summary") summaryPrompt);
    [reflexivity | reflexivity | vm_compute; discriminate | apply lookup_singleton_eq].
Qed.

Example savePrompt_sender_missing :
  let st := editing (js "Summarize {subject}") in
  savePrompt (Success ()) st = perform [missingVariablesPopup [js "sender"]] st
  /\ join (js ", ") [js "sender"] = js "sender".
Proof.
  intros st. split; [| reflexivity].
  rewrite (savePrompt_selected (Success ()) st (js "summary") summaryPrompt);
    [reflexivity | reflexivity | vm_compute; discriminate | apply lookup_singleton_eq].
Qed.

(** When several variables are missing the pop-up names each of them. *)
Example savePrompt_both_missing :
  let st := editing (js "Summarize") in
  savePrompt (Success ()) st =
    perform [missingVariablesPopup [js "subject"; js "sender"]] st
  /\ join (js ", ") [js "subject"; js "sender"] = js "subject, sender".
Proof.
  intros st. split; [| reflexivity].
  rewrite (savePrompt_selected (Success ()) st (js "summary") summaryPrompt);
    [reflexivity | reflexivity | vm_compute; discriminate | apply lookup_singleton_eq].
Qed.





End PromptCustomization.

(** ** Inbox: categories *)

Module CategoryForms.
Import Inbox.

Lemma trim_nil_blank (s : jsstring) : blank s = true <-> trim s = [].
Proof. unfold blank. destruct (trim s); simpl; split; congruence. Qed.

Lemma addCategory_refused (post : FetchDataResult unit) (st : NewCategoryModal.State) :
  NewCategoryModal.isOpen st = true ->
  (50 < length (NewCategoryModal.categoryName st)
   \/ 300 < length (NewCategoryModal.categoryDescription st))%nat ->
  exists m, validationError m /\
    NewCategoryModal.addCategory post st = NewCategoryModal.set_errorMessage m st.
Proof.
  intros Ho Hlen. unfold NewCategoryModal.addCategory. rewrite Ho. cbn [negb].
  destruct (_ || _).
  { exists pleaseFillAllFields. split; [now left | reflexivity]. }
  destruct (Nat.ltb_spec 50 (length (NewCategoryModal.categoryName st))).
  { exists maxNameCharacters. split; [right; now left | reflexivity]. }
  destruct (Nat.ltb_spec 300 (length (NewCategoryModal.categoryDescription st))).
  { exists maxDescriptionCharacters. split; [right; now right | reflexivity]. }
  lia.
Qed.

Lemma addCategory_sent (post : FetchDataResult unit) (st : NewCategoryModal.State) :
  NewCategoryModal.isOpen st = true ->
  blank (NewCategoryModal.categoryName st) = false ->
  blank (NewCategoryModal.categoryDescription st) = false ->
  (length (NewCategoryModal.categoryName st) <= 50)%nat ->
  (length (NewCategoryModal.categoryDescription st) <= 300)%nat ->
  exists rest,
    NewCategoryModal.effects (NewCategoryModal.addCategory post st) =
      NewCategoryModal.effects st ++ NewCategoryModal.createRequest st :: rest.
Proof.
  intros Ho Hn Hd Ln Ld. unfold NewCategoryModal.addCategory, blank in *.
  rewrite Ho, Hn, Hd. cbn [negb orb].
  destruct (Nat.ltb_spec 50 (length (NewCategoryModal.categoryName st))); [lia |].
  destruct (Nat.ltb_spec 300 (length (NewCategoryModal.categoryDescription st))); [lia |].
  destruct post as [[]|e]; cbn; rewrite <- ?app_assoc; eexists; reflexivity.
Qed.

Lemma updateCategory_refused (put : FetchDataResult unit) (st : UpdateCategoryModal.State) :
  UpdateCategoryModal.isOpen st = true ->
  (50 < length (UpdateCategoryModal.categoryName st)
   \/ 300 < length (UpdateCategoryModal.categoryDescription st))%nat ->
  exists m, validationError m /\
    UpdateCategoryModal.updateCategory put st = UpdateCategoryModal.set_errorMessage m st.
Proof.
  intros Ho Hlen. unfold UpdateCategoryModal.updateCategory. rewrite Ho. cbn [negb].
  destruct (_ || _).
  { exists pleaseFillAllFields. split; [now left | reflexivity]. }
  destruct (Nat.ltb_spec 50 (length (UpdateCategoryModal.categoryName st))).
  { exists maxNameCharacters. split; [right; now left | reflexivity]. }
  destruct (Nat.ltb_spec 300 (length (UpdateCategoryModal.categoryDescription st))).
  { exists maxDescriptionCharacters. split; [right; now right | reflexivity]. }
  lia.
Qed.

Lemma updateCategory_sent (put : FetchDataResult unit) (st : UpdateCategoryModal.State) :
  UpdateCategoryModal.isOpen st = true ->
  blank (UpdateCategoryModal.categoryName st) = false ->
  blank (UpdateCategoryModal.categoryDescription st) = false ->
  (length (UpdateCategoryModal.categoryName st) <= 50)%nat ->
  (length (UpdateCategoryModal.categoryDescription st) <= 300)%nat ->
  exists rest,
    performed st (UpdateCategoryModal.updateCategory put st) =
      UpdateCategoryModal.updateRequest st :: rest.
Proof.
  intros Ho Hn Hd Ln Ld. unfold UpdateCategoryModal.updateCategory, blank, performed in *.
  rewrite Ho, Hn, Hd. cbn [negb orb].
  destruct (Nat.ltb_spec 50 (length (UpdateCategoryModal.categoryName st))); [lia |].
  destruct (Nat.ltb_spec 300 (length (UpdateCategoryModal.categoryDescription st))); [lia |].
  destruct put as [[]|e]; cbn; rewrite <- ?app_assoc, drop_app_length;
    eexists; reflexivity.
Qed.

Lemma addCategory_blank (post : FetchDataResult unit) (st : NewCategoryModal.State) :
  NewCategoryModal.isOpen st = true ->
  blank (NewCategoryModal.categoryName st) = true
  \/ blank (NewCategoryModal.categoryDescription st) = true ->
  NewCategoryModal.addCategory post st =
    NewCategoryModal.set_errorMessage pleaseFillAllFields st.
Proof.
  intros Ho Hb. unfold NewCategoryModal.addCategory, blank in *. rewrite Ho.
  cbn [negb]. destruct Hb as [-> | ->]; [| rewrite orb_true_r]; reflexivity.
Qed.

Lemma updateCategory_blank (put : FetchDataResult unit) (st : UpdateCategoryModal.State) :
  UpdateCategoryModal.isOpen st = true ->
  blank (UpdateCategoryModal.categoryName st) = true
  \/ blank (UpdateCategoryModal.categoryDescription st) = true ->
  UpdateCategoryModal.updateCategory put st =
    UpdateCategoryModal.set_errorMessage pleaseFillAllFields st.
Proof.
  intros Ho Hb. unfold UpdateCategoryModal.updateCategory, blank in *. rewrite Ho.
  cbn [negb]. destruct Hb as [-> | ->]; [| rewrite orb_true_r]; reflexivity.
Qed.

(** C7, as the code has it. With the form open, creating and renaming a
    category are refused with a validation message, and nothing is sent,
    when the name has more than 50 code units or the description more
    than 300, hence also when the name has more than 50 characters or
    the description more than 300; they are refused with the
    fill-all-fields message when the name or the description is blank
    once trimmed, whatever their lengths; when the name has at most 50
    code units and the description at most 300, the bounds 50 and 300
    included, and neither is blank once trimmed, the request is sent. *)
Theorem category_length_bounds (post put : FetchDataResult unit)
    (n : NewCategoryModal.State) (u : UpdateCategoryModal.State) :
  NewCategoryModal.isOpen n = true ->
  UpdateCategoryModal.isOpen u = true ->
  ((50 < length (NewCategoryModal.categoryName n)
    \/ 300 < length (NewCategoryModal.categoryDescription n))%nat ->
   exists m, validationError m /\
     NewCategoryModal.addCategory post n = NewCategoryModal.set_errorMessage m n)
  /\ ((length (NewCategoryModal.categoryName n) <= 50)%nat ->
      (length (NewCategoryModal.categoryDescription n) <= 300)%nat ->
      blank (NewCategoryModal.categoryName n) = false ->
      blank (NewCategoryModal.categoryDescription n) = false ->
      exists rest,
        NewCategoryModal.effects (NewCategoryModal.addCategory post n) =
          NewCategoryModal.effects n ++ NewCategoryModal.createRequest n :: rest)
  /\ ((50 < length (UpdateCategoryModal.categoryName u)
       \/ 300 < length (UpdateCategoryModal.categoryDescription u))%nat ->
      exists m, validationError m /\
        UpdateCategoryModal.updateCategory put u = UpdateCategoryModal.set_errorMessage m u)
  /\ ((length (UpdateCategoryModal.categoryName u) <= 50)%nat ->
      (length (UpdateCategoryModal.categoryDescription u) <= 300)%nat ->
      blank (UpdateCategoryModal.categoryName u) = false ->
      blank (UpdateCategoryModal.categoryDescription u) = false ->
      exists rest,
        performed u (UpdateCategoryModal.updateCategory put u) =
          UpdateCategoryModal.updateRequest u :: rest)
  /\ (blank (NewCategoryModal.categoryName n) = true
      \/ blank (NewCategoryModal.categoryDescription n) = true ->
      NewCategoryModal.addCategory post n =
        NewCategoryModal.set_errorMessage
          (t "homePage.modals.pleaseFillAllFields") n)
  /\ (blank (UpdateCategoryModal.categoryName u) = true
      \/ blank (UpdateCategoryModal.categoryDescription u) = true ->
      UpdateCategoryModal.updateCategory put u =
        UpdateCategoryModal.set_errorMessage
          (t "homePage.modals.pleaseFillAllFields") u)
  /\ ((50 < characters (NewCategoryModal.categoryName n)
       \/ 300 < characters (NewCategoryModal.categoryDescription n))%nat ->
      exists m, validationError m /\
        NewCategoryModal.addCategory post n = NewCategoryModal.set_errorMessage m n)
  /\ ((50 < characters (UpdateCategoryModal.categoryName u)
       \/ 300 < characters (UpdateCategoryModal.categoryDescription u))%nat ->
      exists m, validationError m /\
        UpdateCategoryModal.updateCategory put u = UpdateCategoryModal.set_errorMessage m u).
Proof.
  intros Hn Hu.
  pose proof (JSFacts.characters_le_length (NewCategoryModal.categoryName n)).
  pose proof (JSFacts.characters_le_length (NewCategoryModal.categoryDescription n)).
  pose proof (JSFacts.characters_le_length (UpdateCategoryModal.categoryName u)).
  pose proof (JSFacts.characters_le_length (UpdateCategoryModal.categoryDescription u)).
  split; [| split; [| split; [| split; [| split; [| split; [| split]]]]]].
  - now apply addCategory_refused.
  - intros. now apply addCategory_sent.
  - now apply updateCategory_refused.
  - intros. now apply updateCategory_sent.
  - now apply addCategory_blank.
  - now apply updateCategory_blank.
  - intros Hc. apply addCategory_refused; [exact Hn | lia].
  - intros Hc. apply updateCategory_refused; [exact Hu | lia].
Qed.

Lemma category_length_bounds_witness :
  let n := creationForm (repeat 97%N 50) (repeat 98%N 300) in
  let u := typeDescription (repeat 98%N 300)
             (typeName (repeat 97%N 50) (updateForm [Invoices] Invoices)) in
  NewCategoryModal.isOpen n = true /\
  UpdateCategoryModal.isOpen u = true /\
  (exists rest,
     NewCategoryModal.effects (NewCategoryModal.addCategory (Success ()) n) =
       NewCategoryModal.effects n ++ NewCategoryModal.createRequest n :: rest) /\
  (exists rest,
     performed u (UpdateCategoryModal.updateCategory (Success ()) u) =
       UpdateCategoryModal.updateRequest u :: rest).
Proof.
  intros n u.
  assert (Hn : NewCategoryModal.isOpen n = true) by reflexivity.
  assert (Hu : UpdateCategoryModal.isOpen u = true) by reflexivity.
  destruct (category_length_bounds (Success ()) (Success ()) n u Hn Hu)
    as [_ [Hcreate [_ [Hrename _]]]].
  split; [exact Hn |]. split; [exact Hu |]. split.
  - apply Hcreate; vm_compute; first [reflexivity | lia].
  - apply Hrename; vm_compute; first [reflexivity | lia].
Defined.

(** One code unit more on either field and the forms answer with the
    message of that field. *)
Example addCategory_name_of_51 :
  let st := creationForm (repeat 97%N 51) (repeat 98%N 300) in
  NewCategoryModal.addCategory (Success ()) st =
    NewCategoryModal.set_errorMessage maxNameCharacters st.
Proof. reflexivity. Qed.

Example addCategory_description_of_301 :
  let st := creationForm (repeat 97%N 50) (repeat 98%N 301) in
  NewCategoryModal.addCategory (Success ()) st =
    NewCategoryModal.set_errorMessage maxDescriptionCharacters st.
Proof. reflexivity. Qed.

Example updateCategory_name_of_51 :
  let st := typeName (repeat 97%N 51) (updateForm [Invoices] Invoices) in
  UpdateCategoryModal.updateCategory (Success ()) st =
    UpdateCategoryModal.set_errorMessage maxNameCharacters st.
Proof. reflexivity. Qed.

(** C7 as stated fails in three ways. A name of 49 letters followed by
    one character outside the Basic Multilingual Plane has 50 characters
    and 51 code units: it is not blank, its description has 300 letters,
    and both forms refuse it with the message of the name bound. A name
    of 50 spaces with a description of 300 letters is at the bounds, and
    both forms refuse it with the fill-all-fields message. And on the
    update form closed with a name of 51 letters left in its field,
    [updateCategory], which the Enter key still runs, returns at once:
    no validation message is set and nothing is sent. *)
Lemma length_fifty_not_accepted :
  let astral := repeat 97%N 49 ++ [55357%N; 56832%N] in
  let letters := repeat 98%N 300 in
  let n := creationForm astral letters in
  let u := typeDescription letters (typeName astral (updateForm [Invoices] Invoices)) in
  let n' := creationForm (repeat 32%N 50) letters in
  let u' := typeDescription letters
              (typeName (repeat 32%N 50) (updateForm [Invoices] Invoices)) in
  let closed :=
    UpdateCategoryModal.set_props false (Some Invoices)
      (typeName (repeat 97%N 51) (updateForm [Invoices] Invoices)) in
  (characters astral = 50%nat /\ length astral = 51%nat /\ blank astral = false
   /\ length letters = 300%nat /\ blank letters = false
   /\ NewCategoryModal.addCategory (Success ()) n =
        NewCategoryModal.set_errorMessage maxNameCharacters n
   /\ NewCategoryModal.effects (NewCategoryModal.addCategory (Success ()) n) = []
   /\ UpdateCategoryModal.updateCategory (Success ()) u =
        UpdateCategoryModal.set_errorMessage maxNameCharacters u
   /\ performed u (UpdateCategoryModal.updateCategory (Success ()) u) = [])
  /\ (length (repeat 32%N 50) = 50%nat
      /\ NewCategoryModal.addCategory (Success ()) n' =
           NewCategoryModal.set_errorMessage pleaseFillAllFields n'
      /\ NewCategoryModal.effects (NewCategoryModal.addCategory (Success ()) n') = []
      /\ UpdateCategoryModal.updateCategory (Success ()) u' =
           UpdateCategoryModal.set_errorMessage pleaseFillAllFields u'
      /\ performed u' (UpdateCategoryModal.updateCategory (Success ()) u') = [])
  /\ (length (UpdateCategoryModal.categoryName closed) = 51%nat
      /\ UpdateCategoryModal.updateCategory (Success ()) closed = closed
      /\ UpdateCategoryModal.errorMessage closed = raw []
      /\ performed closed (UpdateCategoryModal.updateCategory (Success ()) closed) = []).
Proof. repeat split; reflexivity. Qed.

Import UpdateCategoryModal.

Lemma performed_form (es : list Effect) (st : State) :
  performed st (perform es st) = es.
Proof. unfold performed. cbn [effects perform]. apply drop_app_length. Qed.

(** The gate of the delete button: with the form open and the
    dependencies fetched, the delete request leaves at once exactly when
    both counts are zero; otherwise nothing is deleted and the
    confirmation dialog is opened with the two counts. *)
Lemma openCategoryDeletionModal_gate (DEFAULT_CATEGORY : jsstring)
    (data : Dependencies) (del : FetchDataResult unit) (st : State) :
  isOpen st = true ->
  let st' := openCategoryDeletionModal DEFAULT_CATEGORY (Success data) del st in
  (In (deleteRequest st) (performed st st') <-> nbRules data = 0%Z /\ nbEmails data = 0%Z)
  /\ (~ (nbRules data = 0%Z /\ nbEmails data = 0%Z) ->
      performed st st' = [dependenciesRequest st; Emit "close" JUndefined]
      /\ isCategoryDeletionModalOpen st' = true
      /\ nbRulesLinked st' = nbRules data /\ nbEmailsLinked st' = nbEmails data).
Proof.
  intros Ho st'. subst st'. unfold openCategoryDeletionModal. rewrite Ho. cbn [negb].
  destruct (Z.eqb_spec (nbRules data) 0) as [Hr|Hr];
    [destruct (Z.eqb_spec (nbEmails data) 0) as [He|He] |]; cbn [andb].
  - split; [| tauto]. split; [tauto | intros _].
    unfold performed.
    destruct del; cbn; rewrite <- ?app_assoc, drop_app_length; right; left; reflexivity.
  - unfold performed. cbn. rewrite <- ?app_assoc, drop_app_length.
    split; [| intros _; repeat split; reflexivity].
    split; [| tauto]. intros [H | [H | []]]; discriminate.
  - unfold performed. cbn. rewrite <- ?app_assoc, drop_app_length.
    split; [| intros _; repeat split; reflexivity].
    split; [| tauto]. intros [H | [H | []]]; discriminate.
Qed.

(** The confirmation dialog deletes what the name field holds. *)
Lemma deleteCategory_sends (DEFAULT_CATEGORY : jsstring)
    (del : FetchDataResult unit) (st : State) :
  exists rest,
    performed st (deleteCategory DEFAULT_CATEGORY del st) =
      deletes (categoryName st) :: rest.
Proof.
  unfold performed, deleteCategory.
  destruct del; cbn; rewrite <- ?app_assoc, drop_app_length; eexists; reflexivity.
Qed.

(** A rename names the category of the props: opened from a tab that
    carries the pencil icon, the form never renames the default
    category, whatever is typed into it. *)
Lemma updateCategory_not_default (DEFAULT_CATEGORY : jsstring)
    (cats : list Category) (c : Category) (n d : jsstring)
    (put : FetchDataResult unit) (e : Effect) :
  Categories.hasUpdateIcon DEFAULT_CATEGORY c = true ->
  let st := typeDescription d (typeName n (updateForm cats c)) in
  In e (performed st (updateCategory put st)) -> ~ renames DEFAULT_CATEGORY e.
Proof.
  intros Hicon st. unfold Categories.hasUpdateIcon, str_eqb in Hicon.
  apply negb_true_iff, bool_decide_eq_false in Hicon.
  unfold updateCategory. cbn [isOpen st typeDescription typeName updateForm
    receiveProps set_props set_categoryName set_categoryDescription negb].
  destruct (_ || _); [unfold performed; cbn; intros [] |].
  destruct (_ <? _)%nat; [unfold performed; cbn; intros [] |].
  destruct (_ <? _)%nat; [unfold performed; cbn; intros [] |].
  unfold performed.
  destruct put as [[]|err]; cbn; intros H [newName [newDescription E]];
    repeat (destruct H as [<- | H]); try contradiction; try discriminate;
    injection E as _ _ E; contradiction.
Qed.

(** C2, where the code departs from it. The form is open on [Invoices],
    which has no dependents; the user has typed [Clients] into the name
    field and presses the delete button. The dependencies are asked for
    [Invoices], the delete request names [Clients], whose three rules and
    twelve emails were never counted, and no confirmation is asked. *)
Theorem delete_names_the_typed_category (DEFAULT_CATEGORY : jsstring) :
  let st := typeName (js "Clients") (updateForm [Invoices; Clients] Invoices) in
  let st' :=
    openCategoryDeletionModal DEFAULT_CATEGORY (countDependents (propName st))
      (Success ()) st in
  countDependents (Some (js "Clients")) = Success {| nbRules := 3; nbEmails := 12 |}
  /\ performed st st' =
       [ PostData "get_dependencies/" (JObj [(js "categoryName", JStr (js "Invoices"))]);
         deletes (js "Clients");
         Emit "close" JUndefined;
         Emit "selectCategory"
           (JObj [(js "name", JStr DEFAULT_CATEGORY); (js "description", JStr [])]);
         DisplayPopup ok
           (t "constants.popUpConstants.successMessages.success")
           (t "constants.popUpConstants.successMessages.deleteCategorySuccess") ]
  /\ isCategoryDeletionModalOpen st' = false
  /\ categories st' = [Invoices].
Proof. repeat split; reflexivity. Qed.

(** C4, where the code departs from it. The form is open on a category
    whose tab carries the pencil icon, hence not the default one; the
    user types the name of the default category into the name field and
    presses the delete button. The dependencies are asked for the
    category of the form, and the delete request, sent at once when that
    category has no dependents and on confirmation otherwise, names the
    default category; when the server accepts it the default category
    leaves the list of the page. *)
Theorem delete_can_name_the_default_category (DEFAULT_CATEGORY : jsstring)
    (cats : list Category) (c : Category) (data : Dependencies)
    (del : FetchDataResult unit) :
  Categories.hasUpdateIcon DEFAULT_CATEGORY c = true ->
  let st := typeName DEFAULT_CATEGORY (updateForm cats c) in
  let st' := openCategoryDeletionModal DEFAULT_CATEGORY (Success data) del st in
  name c <> DEFAULT_CATEGORY
  /\ dependenciesRequest st =
       PostData "get_dependencies/" (JObj [(js "categoryName", JStr (name c))])
  /\ (nbRules data = 0%Z /\ nbEmails data = 0%Z ->
      In (deletes DEFAULT_CATEGORY) (performed st st'))
  /\ (exists rest,
        performed st' (deleteCategory DEFAULT_CATEGORY del st') =
          deletes DEFAULT_CATEGORY :: rest)
  /\ categories (deleteCategory DEFAULT_CATEGORY (Success ()) st) =
       spliceNamed DEFAULT_CATEGORY cats.
Proof.
  intros Hicon st st'. split; [| split; [| split; [| split]]].
  - unfold Categories.hasUpdateIcon, str_eqb in Hicon.
    now apply negb_true_iff, bool_decide_eq_false in Hicon.
  - reflexivity.
  - intros Hz.
    apply (openCategoryDeletionModal_gate DEFAULT_CATEGORY data del st eq_refl).
    exact Hz.
  - destruct (deleteCategory_sends DEFAULT_CATEGORY del st') as [rest E].
    exists rest. rewrite E. f_equal. subst st'.
    unfold openCategoryDeletionModal. cbn [isOpen st typeName updateForm receiveProps
      set_props set_categoryName set_categoryDescription negb].
    destruct (_ && _); [destruct del |]; reflexivity.
  - reflexivity.
Qed.

Lemma delete_can_name_the_default_category_witness :
  let DEFAULT_CATEGORY := js "Others" in
  let Others := {| name := DEFAULT_CATEGORY; description := [] |} in
  let zero := {| nbRules := 0; nbEmails := 0 |} in
  let st := typeName DEFAULT_CATEGORY (updateForm [Others; Invoices] Invoices) in
  let st' := openCategoryDeletionModal DEFAULT_CATEGORY (Success zero) (Success ()) st in
  Categories.hasUpdateIcon DEFAULT_CATEGORY Invoices = true
  /\ In (deletes DEFAULT_CATEGORY) (performed st st')
  /\ categories st' = [Invoices].
Proof.
  intros DEFAULT_CATEGORY Others zero st st'.
  assert (H : Categories.hasUpdateIcon DEFAULT_CATEGORY Invoices = true) by reflexivity.
  split; [exact H |]. split; [| reflexivity].
  apply (delete_can_name_the_default_category DEFAULT_CATEGORY [Others; Invoices]
           Invoices zero (Success ()) H).
  split; reflexivity.
Defined.

End CategoryForms.

(** ** Settings: account page *)

Module AccountPage.
Import Account.

Lemma performed_page (es : list Effect) (st : State) :
  performed st (perform es st) = es.
Proof. unfold performed. cbn [effects perform]. apply drop_app_length. Qed.

Lemma performed_startLinking (provider : jsstring) (st : State) :
  performed st (startLinking provider st) =
    if str_eqb provider MICROSOFT || str_eqb provider GOOGLE
    then [Call "openAddUserDescriptionModal" []] else [].
Proof.
  unfold startLinking, performed. destruct (_ || _); cbn.
  - apply drop_app_length.
  - apply drop_all.
Qed.



(** On a trial plan the refusal is the one of the trial, active or not. *)
Example authorize_trial :
  authorize (Some {| isTrial := true; isActive := true |}) MICROSOFT mounted =
    perform [trialDenied] mounted.
Proof. reflexivity. Qed.

(** C10. Without a plan [authorize] makes no check: it records the
    provider and, for Microsoft and Google, opens the linking dialog,
    displaying nothing. A refusal is displayed only when a plan is
    present, and then only for a trial or an inactive plan. *)
Theorem authorize_without_plan (provider : jsstring) (st : State) :
  typeApi (authorize None provider st) = provider
  /\ performed st (authorize None provider st) =
       (if str_eqb provider MICROSOFT || str_eqb provider GOOGLE
        then [Call "openAddUserDescriptionModal" []] else [])
  /\ (forall userPlan : option Plan,
        In trialDenied (performed st (authorize userPlan provider st))
        \/ In inactiveDenied (performed st (authorize userPlan provider st)) ->
        exists plan, userPlan = Some plan
          /\ (isTrial plan = true \/ isActive plan = false)).
Proof.
  split; [| split].
  - unfold authorize, startLinking. destruct (_ || _); reflexivity.
  - apply performed_startLinking.
  - intros [plan|] H.
    + exists plan. split; [reflexivity |].
      destruct (isTrial plan) eqn:Et; [now left |].
      destruct (isActive plan) eqn:Ea; [| now right].
      exfalso. unfold authorize in H. rewrite Et, Ea in H. cbn [negb] in H.
      rewrite performed_startLinking in H.
      destruct (_ || _); cbn [In] in H; intuition discriminate.
    + exfalso. cbn [authorize] in H. rewrite performed_startLinking in H.
      destruct (_ || _); cbn [In] in H; intuition discriminate.
Qed.

(** The four buttons of the page without a plan. *)
Example authorize_google_without_plan :
  authorize None GOOGLE mounted =
    perform [Call "openAddUserDescriptionModal" []] (set_typeApi GOOGLE mounted).
Proof. reflexivity. Qed.

Example authorize_yahoo_without_plan :
  authorize None YAHOO mounted = set_typeApi YAHOO mounted.
Proof. reflexivity. Qed.

(** What [linkEmail] sends does not depend on [regrantConsent], and on
    success the list of the page is replaced by the one the server
    returns. *)
Lemma linkEmail_shows_server_list (code : jsstring) (regrantConsent : option bool)
    (l : list EmailLinked) (st : State) :
  emailsLinked (linkEmail code regrantConsent (Success ()) (Success l) st) = Some l
  /\ exists rest,
       performed st (linkEmail code regrantConsent (Success ()) (Success l) st) =
         linkRequest code st :: rest.
Proof.
  unfold linkEmail, performed. destruct (default false regrantConsent); cbn.
  - split; [reflexivity |]. rewrite <- ?app_assoc, drop_app_length. eexists; reflexivity.
  - split; [reflexivity |]. rewrite <- ?app_assoc, drop_app_length. eexists; reflexivity.
Qed.

End AccountPage.

(** ** Account-link endpoint *)

Module LinkEndpointFacts.
Import LinkEndpoint.

Lemma sameMailbox_refreshToken (e' e : jsstring) (p' p : ProviderType)
    (token : jsstring) (m : LinkedMailbox) :
  sameMailbox e' p' (refreshToken e p token m) = sameMailbox e' p' m.
Proof. unfold refreshToken. destruct (sameMailbox e p m); reflexivity. Qed.

Lemma entriesFor_refreshToken (e' e : jsstring) (p' p : ProviderType)
    (token : jsstring) (l : list LinkedMailbox) :
  entriesFor e' p' (map (refreshToken e p token) l) = entriesFor e' p' l.
Proof.
  unfold entriesFor. induction l as [|m l IH]; [reflexivity |].
  cbn [map List.filter]. rewrite sameMailbox_refreshToken.
  destruct (sameMailbox e' p' m); cbn [length]; now rewrite IH.
Qed.

Lemma existsb_entriesFor (e : jsstring) (p : ProviderType) (l : list LinkedMailbox) :
  existsb (sameMailbox e p) l = true <-> (0 < entriesFor e p l)%nat.
Proof.
  unfold entriesFor. induction l as [|m l IH]; cbn [existsb List.filter].
  - cbn. split; [discriminate | lia].
  - destruct (sameMailbox e p m); cbn [orb length]; [split; [lia | reflexivity] |].
    exact IH.
Qed.

Lemma refreshToken_idempotent (e : jsstring) (p : ProviderType) (token : jsstring)
    (m : LinkedMailbox) :
  refreshToken e p token (refreshToken e p token m) = refreshToken e p token m.
Proof.
  unfold refreshToken at 2. destruct (sameMailbox e p m) eqn:E.
  - unfold refreshToken. unfold sameMailbox in *. cbn. now rewrite E.
  - unfold refreshToken. now rewrite E.
Qed.

(** A mailbox that is linked is refreshed in place by a consent regrant. *)
Lemma exchangeCode_regrant_linked
    (oauth : ProviderType -> jsstring -> FetchDataResult (jsstring * jsstring))
    (code : jsstring) (p : ProviderType) (mailboxes : list LinkedMailbox)
    (e token : jsstring) :
  oauth p code = Success (e, token) ->
  (0 < entriesFor e p mailboxes)%nat ->
  exchangeCode oauth code p true mailboxes =
    (Success {| email := e; providerType := p; tokenState := token |},
     map (refreshToken e p token) mailboxes).
Proof.
  intros Ho Hl. unfold exchangeCode. rewrite Ho.
  apply existsb_entriesFor in Hl. now rewrite Hl.
Qed.

(** A mailbox that is not linked yet is created. *)
Lemma exchangeCode_fresh
    (oauth : ProviderType -> jsstring -> FetchDataResult (jsstring * jsstring))
    (code : jsstring) (p : ProviderType) (consentRegrant : bool)
    (mailboxes : list LinkedMailbox) (e token : jsstring) :
  oauth p code = Success (e, token) ->
  entriesFor e p mailboxes = 0%nat ->
  let mailbox := {| email := e; providerType := p; tokenState := token |} in
  exchangeCode oauth code p consentRegrant mailboxes = (Success mailbox, mailboxes ++ [mailbox])
  /\ entriesFor e p (mailboxes ++ [mailbox]) = 1%nat.
Proof.
  intros Ho Hl mailbox. unfold exchangeCode. rewrite Ho.
  destruct (existsb (sameMailbox e p) mailboxes) eqn:E.
  - apply existsb_entriesFor in E. lia.
  - split; [reflexivity |]. unfold entriesFor in *.
    rewrite List.filter_app, length_app, Hl. cbn [List.filter].
    unfold sameMailbox at 1. cbn [email providerType mailbox].
    rewrite !bool_decide_eq_true_2 by reflexivity. reflexivity.
Qed.

(** What a refresh stores, entry by entry. *)
Lemma refreshToken_stores (e : jsstring) (p : ProviderType) (token : jsstring)
    (m : LinkedMailbox) :
  refreshToken e p token m =
    if decide (email m = e /\ providerType m = p) then
      {| email := e; providerType := p; tokenState := token |}
    else m.
Proof.
  unfold refreshToken, sameMailbox.
  destruct (decide (email m = e /\ providerType m = p)) as [[<- <-] | Hn].
  - rewrite !bool_decide_eq_true_2 by reflexivity. reflexivity.
  - destruct (bool_decide (email m = e)) eqn:E1; [| reflexivity].
    destruct (bool_decide (providerType m = p)) eqn:E2; [| reflexivity].
    apply bool_decide_eq_true in E1, E2. contradiction Hn. now split.
Qed.

Lemma refreshToken_twice (e : jsstring) (p : ProviderType) (token1 token2 : jsstring)
    (m : LinkedMailbox) :
  refreshToken e p token2 (refreshToken e p token1 m) = refreshToken e p token2 m.
Proof.
  rewrite (refreshToken_stores e p token1 m).
  destruct (decide (email m = e /\ providerType m = p)) as [[<- <-] | Hn];
    [| reflexivity].
  rewrite !refreshToken_stores. cbn [email providerType].
  destruct (decide _) as [_ | Hn]; [reflexivity | contradiction Hn; now split].
Qed.

Lemma lookup_mapped {A B} (f : A -> B) (l : list A) (i : nat) :
  map f l !! i = f <$> l !! i.
Proof. revert i. induction l as [|a l IH]; intros [|i]; cbn; auto. Qed.

(** C9. For a mailbox that is linked once, two invocations of
    [exchangeCode] with the same code and a consent regrant, the provider
    answering the first with the token [token1] and the second with
    [token2], both answer with the mailbox and leave exactly one entry
    for its [(email, providerType)] pair. Each invocation rewrites the
    token state of that entry and nothing else: entry by entry, the list
    after the first invocation holds [token1] in the entries of the pair
    and the list after the second holds [token2] there, the other
    entries being those of the list before; so after the second
    invocation an entry of the pair exists and every such entry holds
    [token2]. The list keeps its length and the number of entries of
    every pair, and when the provider answers twice with the same token
    the second invocation leaves the list as the first left it. *)
Theorem exchangeCode_regrant_twice
    (oauth1 oauth2 : ProviderType -> jsstring -> FetchDataResult (jsstring * jsstring))
    (code : jsstring) (p : ProviderType) (mailboxes : list LinkedMailbox)
    (e token1 token2 : jsstring) :
  oauth1 p code = Success (e, token1) ->
  oauth2 p code = Success (e, token2) ->
  entriesFor e p mailboxes = 1%nat ->
  let stored token := {| email := e; providerType := p; tokenState := token |} in
  let first := exchangeCode oauth1 code p true mailboxes in
  let second := exchangeCode oauth2 code p true (snd first) in
  fst first = Success (stored token1)
  /\ fst second = Success (stored token2)
  /\ entriesFor e p (snd first) = 1%nat
  /\ entriesFor e p (snd second) = 1%nat
  /\ length (snd second) = length mailboxes
  /\ (token2 = token1 -> snd second = snd first)
  /\ (forall e' p', entriesFor e' p' (snd second) = entriesFor e' p' mailboxes)
  /\ (forall i m, mailboxes !! i = Some m ->
        snd first !! i =
          Some (if decide (email m = e /\ providerType m = p) then stored token1
                else m))
  /\ (forall i m, mailboxes !! i = Some m ->
        snd second !! i =
          Some (if decide (email m = e /\ providerType m = p) then stored token2
                else m))
  /\ (forall m, In m (snd second) -> email m = e -> providerType m = p ->
        tokenState m = token2)
  /\ (exists m, In m (snd second) /\ email m = e /\ providerType m = p
        /\ tokenState m = token2).
Proof.
  intros Ho1 Ho2 Hl stored first second.
  assert (E1 : first = (Success (stored token1),
                        map (refreshToken e p token1) mailboxes)).
  { apply exchangeCode_regrant_linked; [exact Ho1 | lia]. }
  assert (H1 : entriesFor e p (snd first) = 1%nat).
  { rewrite E1. cbn [snd]. now rewrite entriesFor_refreshToken. }
  assert (E2 : second = (Success (stored token2),
                         map (refreshToken e p token2) (snd first))).
  { apply exchangeCode_regrant_linked; [exact Ho2 | lia]. }
  assert (E3 : snd second = map (refreshToken e p token2) mailboxes).
  { rewrite E2, E1. cbn [snd]. rewrite map_map.
    apply map_ext. intros m. apply refreshToken_twice. }
  assert (H2 : entriesFor e p (snd second) = 1%nat).
  { rewrite E3. now rewrite entriesFor_refreshToken. }
  assert (Hall : forall m, In m (snd second) -> email m = e -> providerType m = p ->
                           tokenState m = token2).
  { intros m Hm He Hp. rewrite E3 in Hm. apply in_map_iff in Hm as [m0 [<- _]].
    rewrite refreshToken_stores in *.
    destruct (decide (email m0 = e /\ providerType m0 = p)) as [_ | Hn];
      [reflexivity | contradiction Hn; now split]. }
  split; [now rewrite E1 |]. split; [now rewrite E2 |]. split; [exact H1 |].
  split; [exact H2 |]. split; [rewrite E3; apply length_map |].
  split; [intros ->; rewrite E3, E1; reflexivity |].
  split; [intros e' p'; rewrite E3; apply entriesFor_refreshToken |].
  split.
  { intros i m Hi. rewrite E1. cbn [snd].
    rewrite lookup_mapped, Hi. cbn. now rewrite refreshToken_stores. }
  split.
  { intros i m Hi. rewrite E3.
    rewrite lookup_mapped, Hi. cbn. now rewrite refreshToken_stores. }
  split; [exact Hall |].
  unfold entriesFor in H2.
  destruct (List.filter (sameMailbox e p) (snd second)) as [|m l] eqn:Ef;
    [discriminate H2 |].
  assert (Hm : In m (List.filter (sameMailbox e p) (snd second)))
    by (rewrite Ef; now left).
  apply filter_In in Hm as [Hm Hs]. unfold sameMailbox in Hs.
  apply andb_true_iff in Hs as [He Hp]. apply bool_decide_eq_true in He, Hp.
  exists m. split; [exact Hm |]. split; [exact He |]. split; [exact Hp |].
  now apply Hall.
Qed.

Lemma exchangeCode_regrant_twice_witness :
  let again (p : ProviderType) (code : jsstring) :=
    Success (js "ada@example.org", js "token-3") in
  let stored token := {| email := js "ada@example.org"; providerType := google;
                         tokenState := token |} in
  let first := exchangeCode oneCode (js "4/0AfJohXk") google true adaLinked in
  let second := exchangeCode again (js "4/0AfJohXk") google true (snd first) in
  oneCode google (js "4/0AfJohXk") = Success (js "ada@example.org", js "token-2")
  /\ again google (js "4/0AfJohXk") = Success (js "ada@example.org", js "token-3")
  /\ entriesFor (js "ada@example.org") google adaLinked = 1%nat
  /\ fst second = Success (stored (js "token-3"))
  /\ entriesFor (js "ada@example.org") google (snd second) = 1%nat
  /\ (forall m, In m (snd second) -> email m = js "ada@example.org" ->
        providerType m = google -> tokenState m = js "token-3")
  /\ (exists m, In m (snd second) /\ email m = js "ada@example.org"
        /\ providerType m = google /\ tokenState m = js "token-3").
Proof.
  intros again stored first second.
  assert (H1 : oneCode google (js "4/0AfJohXk")
               = Success (js "ada@example.org", js "token-2")) by reflexivity.
  assert (H2 : again google (js "4/0AfJohXk")
               = Success (js "ada@example.org", js "token-3")) by reflexivity.
  assert (H3 : entriesFor (js "ada@example.org") google adaLinked = 1%nat)
    by reflexivity.
  split; [exact H1 |]. split; [exact H2 |]. split; [exact H3 |].
  destruct (exchangeCode_regrant_twice oneCode again (js "4/0AfJohXk") google adaLinked
              (js "ada@example.org") (js "token-2") (js "token-3") H1 H2 H3)
    as [_ [Hs [_ [Hn [_ [_ [_ [_ [_ [Hall Hex]]]]]]]]]].
  split; [exact Hs |]. split; [exact Hn |]. split; [exact Hall | exact Hex].
Defined.

(** The stored list of the example after the two invocations. *)
Example regrant_stored_lists :
  let again (p : ProviderType) (code : jsstring) :=
    Success (js "ada@example.org", js "token-3") in
  let first := exchangeCode oneCode (js "4/0AfJohXk") google true adaLinked in
  let second := exchangeCode again (js "4/0AfJohXk") google true (snd first) in
  snd first =
    [ {| email := js "ada@example.org"; providerType := google;
         tokenState := js "token-2" |};
      {| email := js "ada@example.org"; providerType := microsoft;
         tokenState := js "token-0" |} ]
  /\ snd second =
    [ {| email := js "ada@example.org"; providerType := google;
         tokenState := js "token-3" |};
      {| email := js "ada@example.org"; providerType := microsoft;
         tokenState := js "token-0" |} ].
Proof. split; reflexivity. Qed.

(** The same on a mailbox that was not linked before: the first
    invocation creates it, the second refreshes it. *)
Lemma exchangeCode_twice_fresh
    (oauth : ProviderType -> jsstring -> FetchDataResult (jsstring * jsstring))
    (code : jsstring) (p : ProviderType) (mailboxes : list LinkedMailbox)
    (e token : jsstring) :
  oauth p code = Success (e, token) ->
  entriesFor e p mailboxes = 0%nat ->
  let first := exchangeCode oauth code p true mailboxes in
  let second := exchangeCode oauth code p true (snd first) in
  entriesFor e p (snd second) = 1%nat.
Proof.
  intros Ho Hl first second.
  destruct (exchangeCode_fresh oauth code p true mailboxes e token Ho Hl) as [E1 H1].
  subst second first. rewrite E1. cbn [snd].
  rewrite (exchangeCode_regrant_linked oauth code p _ e token Ho) by lia.
  cbn [snd]. now rewrite entriesFor_refreshToken.
Qed.

End LinkEndpointFacts.

(** * Further properties *)

(** ** Prompt customisation page: selection and prompts *)

Module PromptSettings.
Import LLM.

Lemma find_all_false {A} (f : A -> bool) (l : list A) :
  (forall x, In x l -> f x = false) -> find f l = None.
Proof.
  induction l as [|a l IH]; [reflexivity |]. intros H. cbn.
  rewrite (H a (or_introl eq_refl)). apply IH. intros x Hx. apply H. now right.
Qed.

(** The selection [fetchLLMSettings] stores on a successful answer. *)
Lemma fetchLLMSettings_selection (data : LLMSettings) (st : State) :
  let st' := fetchLLMSettings (Success data) st in
  let p := default firstProvider
             (find (fun p => opt_eqb (data_llmProvider data) (provider p))
                   llmProviderOptions) in
  llmProvider st' = Some p
  /\ llmModel st' =
       match find (fun m => opt_eqb (data_llmModel data) (name m)) (models p) with
       | Some m => Some m
       | None => firstModel p
       end.
Proof.
  intros st' p. split; [reflexivity |].
  subst st'. unfold fetchLLMSettings.
  set (st1 := set_llmProvider _ _).
  cbn [llmModel set_customizablePrompts set_llmModel].
  assert (Hp : In p llmProviderOptions)
    by apply PromptCustomization.find_provider_catalog.
  rewrite (PromptCustomization.llmModelOptions_selected p st1 eq_refl Hp). reflexivity.
Qed.

(** X1. What [saveLLMSettings] sends is what [fetchLLMSettings] reads
    back: when the server answers the refetch with the provider and
    model names it was just sent, the selection is the one before the
    save. *)
Theorem saveLLMSettings_round_trip (prompts : gmap jsstring Prompt)
    (p : LLMProvider) (m : LLMModel) (st : State) :
  consistent st -> llmProvider st = Some p -> llmModel st = Some m ->
  let sent := {| data_llmProvider := Some (provider p);
                 data_llmModel := Some (name m);
                 data_prompts := prompts |} in
  let st' := saveLLMSettings (Success ()) (Success sent) st in
  llmProvider st' = llmProvider st /\ llmModel st' = Some m
  /\ customizablePrompts st' = prompts.
Proof.
  intros [p' [Ep' [Hp [m' [Em Hm]]]]] Ep E sent st'.
  rewrite Ep in Ep'. injection Ep' as <-. rewrite E in Em. injection Em as <-.
  subst st'. unfold saveLLMSettings. rewrite Ep, E.
  set (st1 := perform _ (perform _ st)).
  destruct (fetchLLMSettings_selection sent st1) as [H1 H2].
  rewrite H1, H2. subst sent. cbn [data_llmProvider data_llmModel].
  split; [| split; [| reflexivity]].
  - PromptCustomization.catalog Hp; reflexivity.
  - PromptCustomization.catalog Hp; cbn [models In] in Hm;
      repeat (destruct Hm as [<- | Hm]); try contradiction; reflexivity.
Qed.

Lemma saveLLMSettings_round_trip_witness :
  let st := selectProvider mistral initial in
  let sent := {| data_llmProvider := Some (js "mistral");
                 data_llmModel := Some (js "ministral-8b-latest");
                 data_prompts := ∅ |} in
  let st' := saveLLMSettings (Success ()) (Success sent) st in
  consistent st /\ llmProvider st = Some mistral /\ llmModel st = Some ministral8b /\
  llmProvider st' = Some mistral /\ llmModel st' = Some ministral8b
  /\ customizablePrompts st' = ∅.
Proof.
  intros st sent st'.
  assert (H1 : consistent st).
  { exists mistral. split; [reflexivity |]. split; [simpl; tauto |].
    exists ministral8b. split; [reflexivity | left; reflexivity]. }
  assert (H2 : llmProvider st = Some mistral) by reflexivity.
  assert (H3 : llmModel st = Some ministral8b) by reflexivity.
  split; [exact H1 |]. split; [exact H2 |]. split; [exact H3 |].
  exact (saveLLMSettings_round_trip ∅ mistral ministral8b st H1 H2 H3).
Defined.

(** X2. How [fetchLLMSettings] resolves a stored selection: a provider
    name of the catalog selects that provider, any other value the first
    provider; a model name of the resolved provider selects that model,
    any other value its first model. *)
Theorem fetchLLMSettings_resolution (data : LLMSettings) (st : State) :
  let st' := fetchLLMSettings (Success data) st in
  exists selected, llmProvider st' = Some selected
  /\ (forall p, In p llmProviderOptions ->
        data_llmProvider data = Some (provider p) -> selected = p)
  /\ ((forall p, In p llmProviderOptions ->
         data_llmProvider data <> Some (provider p)) ->
      selected = firstProvider)
  /\ (forall m, In m (models selected) ->
        data_llmModel data = Some (name m) -> llmModel st' = Some m)
  /\ ((forall m, In m (models selected) ->
         data_llmModel data <> Some (name m)) ->
      llmModel st' = firstModel selected).
Proof.
  intros st'. destruct (fetchLLMSettings_selection data st) as [H1 H2].
  fold st' in H1, H2.
  set (selected := default firstProvider _) in H1, H2.
  assert (Hcat : In selected llmProviderOptions)
    by apply PromptCustomization.find_provider_catalog.
  exists selected. split; [exact H1 |]. split; [| split; [| split]].
  - intros p Hp E. subst selected. rewrite E.
    PromptCustomization.catalog Hp; reflexivity.
  - intros Hno. subst selected. rewrite find_all_false; [reflexivity |].
    intros p Hp. apply bool_decide_eq_false. now apply Hno.
  - intros m Hm E. rewrite H2, E. clear H1 H2.
    generalize dependent selected. intros p Hp Hm.
    PromptCustomization.catalog Hp; cbn [models In] in Hm;
      repeat (destruct Hm as [<- | Hm]); try contradiction; reflexivity.
  - intros Hno. rewrite H2. rewrite find_all_false; [reflexivity |].
    intros m Hm. apply bool_decide_eq_false. now apply Hno.
Qed.

(** A stored model that is not one of the stored provider falls back to
    the first model of that provider. *)
Example fetchLLMSettings_foreign_model :
  let data := {| data_llmProvider := Some (js "mistral");
                 data_llmModel := Some (js "gemini-1.5-pro");
                 data_prompts := ∅ |} in
  llmProvider (fetchLLMSettings (Success data) initial) = Some mistral
  /\ name <$> llmModel (fetchLLMSettings (Success data) initial)
     = Some (js "ministral-8b-latest").
Proof. split; reflexivity. Qed.

(** X3. [savePrompt] changes nothing but the log, and the only request
    it ever sends is the save of the edited prompt with the text of the
    editor, and only when a prompt is selected whose required variables
    are all present in that text. *)
Theorem savePrompt_sends_only_valid (put : FetchDataResult unit) (st : State) :
  (exists es, savePrompt put st = perform es st)
  /\ (forall e, In e (performed st (savePrompt put st)) ->
        (exists type title message, e = DisplayPopup type title message)
        \/ e = TypeError
        \/ exists k promptData,
             editingPrompt st = Some k /\ k <> []
             /\ customizablePrompts st !! k = Some promptData
             /\ allPresent promptData (promptInput st)
             /\ e = savePromptRequest k (promptInput st)).
Proof.
  assert (Hpop : forall e es, In e (performed st (perform es st)) -> In e es).
  { intros e es. now rewrite PromptCustomization.performed_perform. }
  unfold savePrompt.
  destruct (editingPrompt st) as [k|] eqn:Ek.
  2:{ split; [eexists; reflexivity |]. intros e He. apply Hpop in He.
      destruct He as [<- | []]. left. unfold noPromptSelected. eauto. }
  destruct k as [|c k]; cbn [falsy].
  { split; [eexists; reflexivity |]. intros e He. apply Hpop in He.
    destruct He as [<- | []]. left. unfold noPromptSelected. eauto. }
  destruct (customizablePrompts st !! _) as [promptData|] eqn:Ep.
  2:{ split; [eexists; reflexivity |]. intros e He. apply Hpop in He.
      destruct He as [<- | []]. right. now left. }
  destruct (missingVariables promptData (promptInput st)) as [|v l] eqn:Em;
    cbn [length Nat.ltb Nat.leb].
  - split; [eexists; reflexivity |]. intros e He. apply Hpop in He.
    destruct He as [<- | [<- | []]].
    + right. right. exists (c :: k), promptData.
      repeat split; try reflexivity; try discriminate; try assumption.
      now apply PromptCustomization.missingVariables_nil.
    + left. unfold savePromptAnswer. destruct put; eauto.
  - split; [eexists; reflexivity |]. intros e He. apply Hpop in He.
    destruct He as [<- | []]. left. unfold missingVariablesPopup. eauto.
Qed.

Lemma occursIn_extend (needle before body after : jsstring) :
  occursIn needle body -> occursIn needle (before ++ body ++ after).
Proof.
  intros [b [a ->]]. exists (before ++ b), (a ++ after).
  now rewrite <- !app_assoc.
Qed.

(** X4. Text added before or after a body never makes a variable
    missing: the variables missing from the longer body are among those
    missing from the shorter one, so a body that passes the check still
    passes it once extended. *)
Theorem missingVariables_extend (promptData : Prompt) (before body after : jsstring) :
  (forall v, In v (missingVariables promptData (before ++ body ++ after)) ->
             In v (missingVariables promptData body))
  /\ (missingVariables promptData body = [] ->
      missingVariables promptData (before ++ body ++ after) = []).
Proof.
  assert (H : forall v, In v (missingVariables promptData (before ++ body ++ after)) ->
                        In v (missingVariables promptData body)).
  { intros v Hv. apply PromptCustomization.missingVariables_spec in Hv as [Hin Hno].
    apply PromptCustomization.missingVariables_spec. split; [exact Hin |].
    intros Hocc. apply Hno. now apply occursIn_extend. }
  split; [exact H |]. intros E.
  destruct (missingVariables promptData (before ++ body ++ after)) as [|v l] eqn:E';
    [reflexivity |].
  specialize (H v (or_introl eq_refl)). rewrite E in H. contradiction.
Qed.

(** X5. A successful [resetSelectedPrompt] asks for the reset of the
    edited prompt only, takes the prompts of the refetch, keeps the
    prompt being edited and reloads the editor with its refetched text. *)
Theorem resetSelectedPrompt_reloads (data : LLMSettings) (st : State)
    (k : jsstring) (p : Prompt) :
  editingPrompt st = Some k -> k <> [] -> data_prompts data !! k = Some p ->
  let st' := resetSelectedPrompt (Success ()) (Success data) st in
  (exists rest,
     performed st st' = DeleteData llm_settings (JObj [(k, JBool true)]) :: rest)
  /\ customizablePrompts st' = data_prompts data
  /\ editingPrompt st' = Some k
  /\ promptInput st' = prompt p.
Proof.
  intros Ek Hne Hp st'. subst st'. unfold resetSelectedPrompt.
  unfold fetchLLMSettings.
  cbn [editingPrompt perform set_customizablePrompts set_llmModel set_llmProvider].
  rewrite Ek. destruct k as [|c k]; [contradiction |]. cbn [falsy promptKey default].
  unfold loadPrompt.
  cbn [customizablePrompts perform set_customizablePrompts set_llmModel set_llmProvider].
  rewrite Hp. split; [| repeat split; cbn; try reflexivity; exact Ek].
  unfold performed. cbn. rewrite <- ?app_assoc, drop_app_length. eexists; reflexivity.
Qed.

Lemma resetSelectedPrompt_reloads_witness :
  let st := set_promptInput (js "Summarize") (editing (js "Summarize {subject}")) in
  let data := {| data_llmProvider := Some (js "google");
                 data_llmModel := Some (js "gemini-1.5-pro");
                 data_prompts := {[ js "summary" := summaryPrompt ]} |} in
  let st' := resetSelectedPrompt (Success ()) (Success data) st in
  editingPrompt st = Some (js "summary") /\ js "summary" <> [] /\
  data_prompts data !! js "summary" = Some summaryPrompt /\
  promptInput st' = js "Summarize {subject} from {sender}".
Proof.
  intros st data st'.
  assert (H1 : editingPrompt st = Some (js "summary")) by reflexivity.
  assert (H2 : js "summary" <> []) by (vm_compute; discriminate).
  assert (H3 : data_prompts data !! js "summary" = Some summaryPrompt)
    by (vm_compute; reflexivity).
  split; [exact H1 |]. split; [exact H2 |]. split; [exact H3 |].
  apply (resetSelectedPrompt_reloads data st (js "summary") summaryPrompt H1 H2 H3).
Defined.

(** The refs of the page. *)
Lemma same_refs_perform (es : list Effect) (st : State) :
  llmProvider (perform es st) = llmProvider st
  /\ llmModel (perform es st) = llmModel st
  /\ promptInput (perform es st) = promptInput st
  /\ editingPrompt (perform es st) = editingPrompt st
  /\ customizablePrompts (perform es st) = customizablePrompts st.
Proof. repeat split. Qed.

(** X6. When the request fails, [fetchLLMSettings], [saveLLMSettings]
    and [resetSelectedPrompt] leave the selection, the editor and the
    prompts as they were and display the error of the server; and
    [resetToDefault], whose request failed as well, has nevertheless put
    the selection to the default and emptied the editor, without
    refetching. *)
Theorem failed_request_effects (e : jsstring) (get : FetchDataResult LLMSettings)
    (p : LLMProvider) (m : LLMModel) (st : State) :
  llmProvider st = Some p -> llmModel st = Some m ->
  (exists title, fetchLLMSettings (Failure e) st =
     perform [GetData llm_settings; DisplayPopup error title (raw e)] st)
  /\ (exists request title, saveLLMSettings (Failure e) get st =
        perform [request; DisplayPopup error title (raw e)] st)
  /\ (exists request title, resetSelectedPrompt (Failure e) get st =
        perform [request; DisplayPopup error title (raw e)] st)
  /\ (exists request title, resetToDefault (Failure e) get st =
        perform [request; DisplayPopup error title (raw e)] (resetRefs st))
  /\ defaultSelection (resetRefs st) /\ promptInput (resetRefs st) = []
  /\ editingPrompt (resetRefs st) = None
  /\ customizablePrompts (resetRefs st) = customizablePrompts st.
Proof.
  intros Ep Em.
  assert (Hpp : forall a b s, perform [b] (perform [a] s) = perform [a; b] s).
  { intros a b s. unfold perform. cbn. now rewrite <- app_assoc. }
  split; [| split; [| split; [| split]]].
  - eexists. unfold fetchLLMSettings. apply Hpp.
  - unfold saveLLMSettings. rewrite Ep, Em. do 2 eexists. apply Hpp.
  - unfold resetSelectedPrompt. do 2 eexists. apply Hpp.
  - unfold resetToDefault. do 2 eexists. apply Hpp.
  - repeat split.
Qed.

Lemma failed_request_effects_witness :
  let st := selectProvider mistral initial in
  llmProvider st = Some mistral /\ llmModel st = Some ministral8b /\
  defaultSelection (resetRefs st) /\
  exists request title, resetToDefault (Failure (js "503")) (Failure []) st =
     perform [request; DisplayPopup error title (raw (js "503"))] (resetRefs st).
Proof.
  intros st.
  assert (Hp : llmProvider st = Some mistral) by reflexivity.
  assert (H : llmModel st = Some ministral8b) by reflexivity.
  split; [exact Hp |]. split; [exact H |].
  destruct (failed_request_effects (js "503") (Failure []) _ _ st Hp H)
    as [_ [_ [_ [Hr [Hd _]]]]].
  split; [exact Hd | exact Hr].
Defined.

End PromptSettings.

(** ** Inbox: the category forms and the list of categories *)

Module CategoryLists.
Import Inbox FormKeys.

Lemma trimStart_nil (s : jsstring) : trimStart s = [] <-> whiteSpaceOnly s.
Proof.
  unfold whiteSpaceOnly. induction s as [|c s IH]; cbn [trimStart].
  - split; [constructor | reflexivity].
  - destruct (isWhiteSpace c) eqn:E.
    + rewrite IH. split; [now constructor | now inversion 1].
    + split; [discriminate | inversion 1; congruence].
Qed.

Lemma trimStart_head (s : jsstring) (c : code_unit) (r : jsstring) :
  trimStart s = c :: r -> isWhiteSpace c = false.
Proof.
  induction s as [|a s IH]; cbn [trimStart]; [discriminate |].
  destruct (isWhiteSpace a) eqn:E; [exact IH |]. now intros [= <- _].
Qed.

Lemma trim_nil (s : jsstring) : trim s = [] <-> whiteSpaceOnly s.
Proof.
  unfold trim, trimEnd. split.
  - intros H. apply (f_equal (@rev _)) in H. rewrite rev_involutive in H. cbn in H.
    apply trimStart_nil in H. unfold whiteSpaceOnly in H.
    apply trimStart_nil.
    destruct (trimStart s) as [|c r] eqn:E; [reflexivity |].
    apply trimStart_head in E.
    assert (Hc : isWhiteSpace c = true).
    { rewrite List.Forall_forall in H. apply H. rewrite <- in_rev. now left. }
    congruence.
  - intros H. apply trimStart_nil in H. now rewrite H.
Qed.

Lemma blank_whiteSpaceOnly (s : jsstring) : blank s = true <-> whiteSpaceOnly s.
Proof. rewrite CategoryForms.trim_nil_blank. apply trim_nil. Qed.

Lemma app_cons_not_self {A} (l : list A) (x : A) (rest : list A) :
  l ++ x :: rest <> l.
Proof.
  intros H. apply (f_equal (@length _)) in H.
  rewrite length_app in H. cbn in H. lia.
Qed.

(** X7. With the form open, creating and renaming answer with the
    fill-all-fields message, and send nothing, exactly when the name or
    the description is empty or made of white space only. *)
Theorem fill_all_fields_iff_white_space (post put : FetchDataResult unit)
    (n : NewCategoryModal.State) (u : UpdateCategoryModal.State) :
  NewCategoryModal.isOpen n = true ->
  UpdateCategoryModal.isOpen u = true ->
  (NewCategoryModal.addCategory post n =
     NewCategoryModal.set_errorMessage pleaseFillAllFields n
   <-> whiteSpaceOnly (NewCategoryModal.categoryName n)
       \/ whiteSpaceOnly (NewCategoryModal.categoryDescription n))
  /\ (UpdateCategoryModal.updateCategory put u =
        UpdateCategoryModal.set_errorMessage pleaseFillAllFields u
      <-> whiteSpaceOnly (UpdateCategoryModal.categoryName u)
          \/ whiteSpaceOnly (UpdateCategoryModal.categoryDescription u)).
Proof.
  intros Hn Hu. split.
  - rewrite <- !blank_whiteSpaceOnly, <- orb_true_iff.
    destruct (blank _ || blank _) eqn:Eb.
    + split; [reflexivity | intros _].
      unfold NewCategoryModal.addCategory. rewrite Hn. cbn [negb].
      unfold blank in Eb. now rewrite Eb.
    + split; [| discriminate]. intros H. exfalso.
      apply orb_false_iff in Eb as [E1 E2].
      destruct (Nat.ltb_spec 50 (length (NewCategoryModal.categoryName n))) as [L|L].
      { destruct (CategoryForms.addCategory_refused post n Hn (or_introl L))
          as [m [Hm E]].
        revert E. unfold NewCategoryModal.addCategory. rewrite Hn. cbn [negb].
        unfold blank in E1, E2. rewrite E1, E2. cbn [orb].
        apply Nat.ltb_lt in L. rewrite L. intros _.
        revert H. unfold NewCategoryModal.addCategory. rewrite Hn. cbn [negb].
        rewrite E1, E2. cbn [orb]. rewrite L. intros H.
        apply (f_equal NewCategoryModal.errorMessage) in H. discriminate H. }
      destruct (Nat.ltb_spec 300 (length (NewCategoryModal.categoryDescription n)))
        as [L'|L'].
      { revert H. unfold NewCategoryModal.addCategory. rewrite Hn. cbn [negb].
        unfold blank in E1, E2. rewrite E1, E2. cbn [orb].
        apply Nat.ltb_ge in L. rewrite L. apply Nat.ltb_lt in L'. rewrite L'.
        intros H. apply (f_equal NewCategoryModal.errorMessage) in H. discriminate H. }
      destruct (CategoryForms.addCategory_sent post n Hn E1 E2 L L') as [rest E].
      rewrite H in E. cbn in E. symmetry in E. now apply app_cons_not_self in E.
  - rewrite <- !blank_whiteSpaceOnly, <- orb_true_iff.
    destruct (blank _ || blank _) eqn:Eb.
    + split; [reflexivity | intros _].
      unfold UpdateCategoryModal.updateCategory. rewrite Hu. cbn [negb].
      unfold blank in Eb. now rewrite Eb.
    + split; [| discriminate]. intros H. exfalso.
      apply orb_false_iff in Eb as [E1 E2].
      destruct (Nat.ltb_spec 50 (length (UpdateCategoryModal.categoryName u))) as [L|L].
      { revert H. unfold UpdateCategoryModal.updateCategory. rewrite Hu. cbn [negb].
        unfold blank in E1, E2. rewrite E1, E2. cbn [orb].
        apply Nat.ltb_lt in L. rewrite L. intros H.
        apply (f_equal UpdateCategoryModal.errorMessage) in H. discriminate H. }
      destruct (Nat.ltb_spec 300 (length (UpdateCategoryModal.categoryDescription u)))
        as [L'|L'].
      { revert H. unfold UpdateCategoryModal.updateCategory. rewrite Hu. cbn [negb].
        unfold blank in E1, E2. rewrite E1, E2. cbn [orb].
        apply Nat.ltb_ge in L. rewrite L. apply Nat.ltb_lt in L'. rewrite L'.
        intros H. apply (f_equal UpdateCategoryModal.errorMessage) in H. discriminate H. }
      destruct (CategoryForms.updateCategory_sent put u Hu E1 E2 L L') as [rest E].
      unfold performed in E. rewrite H in E. cbn in E. rewrite drop_all in E.
      discriminate E.
Qed.

Lemma fill_all_fields_iff_white_space_witness :
  let n := creationForm [9; 32; 160; 8232]%N (js "Bills") in
  let u := typeName [] (updateForm [Invoices] Invoices) in
  NewCategoryModal.isOpen n = true /\ UpdateCategoryModal.isOpen u = true /\
  NewCategoryModal.addCategory (Success ()) n =
    NewCategoryModal.set_errorMessage pleaseFillAllFields n /\
  UpdateCategoryModal.updateCategory (Success ()) u =
    UpdateCategoryModal.set_errorMessage pleaseFillAllFields u.
Proof.
  intros n u.
  assert (Hn : NewCategoryModal.isOpen n = true) by reflexivity.
  assert (Hu : UpdateCategoryModal.isOpen u = true) by reflexivity.
  destruct (fill_all_fields_iff_white_space (Success ()) (Success ()) n u Hn Hu)
    as [[_ H1] [_ H2]].
  split; [exact Hn |]. split; [exact Hu |]. split.
  - apply H1. left. repeat constructor.
  - apply H2. left. constructor.
Defined.

(** X8. What a valid creation does to the page: when the server accepts
    it the category is appended to the list and selected, and when the
    server refuses it the list and the selection are untouched and the
    error of the server is displayed; in both cases the form is closed
    and its two fields are emptied. *)
Theorem addCategory_outcomes (e : jsstring) (n : NewCategoryModal.State) :
  NewCategoryModal.isOpen n = true ->
  blank (NewCategoryModal.categoryName n) = false ->
  blank (NewCategoryModal.categoryDescription n) = false ->
  (length (NewCategoryModal.categoryName n) <= 50)%nat ->
  (length (NewCategoryModal.categoryDescription n) <= 300)%nat ->
  let created := NewCategoryModal.addCategory (Success ()) n in
  let refused := NewCategoryModal.addCategory (Failure e) n in
  NewCategoryModal.categories created =
    NewCategoryModal.categories n ++
      [{| name := NewCategoryModal.categoryName n;
          description := NewCategoryModal.categoryDescription n |}]
  /\ NewCategoryModal.selectedCategory created = NewCategoryModal.categoryName n
  /\ NewCategoryModal.categories refused = NewCategoryModal.categories n
  /\ NewCategoryModal.selectedCategory refused = NewCategoryModal.selectedCategory n
  /\ last (NewCategoryModal.effects refused) =
       Some (DisplayPopup error
               (t "constants.popUpConstants.errorMessages.addCategoryError") (raw e))
  /\ In (Emit "close" JUndefined) (NewCategoryModal.effects created)
  /\ In (Emit "close" JUndefined) (NewCategoryModal.effects refused)
  /\ NewCategoryModal.categoryName created = []
  /\ NewCategoryModal.categoryDescription created = []
  /\ NewCategoryModal.categoryName refused = []
  /\ NewCategoryModal.categoryDescription refused = [].
Proof.
  intros Ho Hn Hd Ln Ld created refused. subst created refused.
  unfold NewCategoryModal.addCategory, blank in *. rewrite Ho, Hn, Hd. cbn [negb orb].
  apply Nat.ltb_ge in Ln, Ld. rewrite Ln, Ld.
  split; [reflexivity |]. split; [reflexivity |]. split; [reflexivity |].
  split; [reflexivity |]. split; [cbn; now rewrite last_snoc |].
  split; [cbn; rewrite !in_app_iff; cbn; tauto |].
  split; [cbn; rewrite !in_app_iff; cbn; tauto |].
  repeat split.
Qed.

Lemma addCategory_outcomes_witness :
  let n := creationForm (js "Invoices") (js "Bills to pay") in
  NewCategoryModal.isOpen n = true /\
  blank (NewCategoryModal.categoryName n) = false /\
  blank (NewCategoryModal.categoryDescription n) = false /\
  (length (NewCategoryModal.categoryName n) <= 50)%nat /\
  (length (NewCategoryModal.categoryDescription n) <= 300)%nat /\
  NewCategoryModal.categories (NewCategoryModal.addCategory (Success ()) n) = [Invoices] /\
  NewCategoryModal.categories (NewCategoryModal.addCategory (Failure (js "exists")) n) = [].
Proof.
  intros n.
  assert (H1 : NewCategoryModal.isOpen n = true) by reflexivity.
  assert (H2 : blank (NewCategoryModal.categoryName n) = false) by reflexivity.
  assert (H3 : blank (NewCategoryModal.categoryDescription n) = false) by reflexivity.
  assert (H4 : (length (NewCategoryModal.categoryName n) <= 50)%nat)
    by (vm_compute; lia).
  assert (H5 : (length (NewCategoryModal.categoryDescription n) <= 300)%nat)
    by (vm_compute; lia).
  destruct (addCategory_outcomes (js "exists") n H1 H2 H3 H4 H5)
    as [Ha [_ [Hb _]]].
  split; [exact H1 |]. split; [exact H2 |]. split; [exact H3 |].
  split; [exact H4 |]. split; [exact H5 |]. split; [exact Ha | exact Hb].
Defined.

Import UpdateCategoryModal.

Lemma updateCategory_valid (put : FetchDataResult unit) (u : State) :
  isOpen u = true ->
  blank (categoryName u) = false -> blank (categoryDescription u) = false ->
  (length (categoryName u) <= 50)%nat -> (length (categoryDescription u) <= 300)%nat ->
  updateCategory put u =
    match put with
    | Success _ => categoryUpdated (perform [updateRequest u] u)
    | Failure e =>
        perform [DisplayPopup error
                   (t "constants.popUpConstants.errorMessages.addCategoryError")
                   (raw e)] (perform [updateRequest u] u)
    end.
Proof.
  intros Ho Hn Hd Ln Ld. unfold updateCategory, blank in *.
  rewrite Ho, Hn, Hd. cbn [negb orb].
  apply Nat.ltb_ge in Ln, Ld. now rewrite Ln, Ld.
Qed.

(** The entry a rename writes in place of [c]. *)
Lemma lookup_map_category (f : Category -> Category) (l : list Category) (i : nat) :
  map f l !! i = f <$> l !! i.
Proof.
  revert i. induction l as [|c l IH]; intros [|i]; cbn; try reflexivity. apply IH.
Qed.

(** X9. A rename the server accepts rewrites the list in place: the list
    keeps its length and its order, every entry that bears the name of
    the category the form was opened on becomes the typed name and
    description, and every other entry is left as it is; a rename the
    server refuses changes nothing but the log and leaves the form as
    typed. *)
Theorem updateCategory_in_place (e : jsstring) (u : State) :
  isOpen u = true ->
  blank (categoryName u) = false -> blank (categoryDescription u) = false ->
  (length (categoryName u) <= 50)%nat -> (length (categoryDescription u) <= 300)%nat ->
  let renamed := updateCategory (Success ()) u in
  let typed := {| name := categoryName u; description := categoryDescription u |} in
  length (categories renamed) = length (categories u)
  /\ (forall i c, categories u !! i = Some c ->
        categories renamed !! i =
          Some (if bool_decide (propName u = Some (name c)) then typed else c))
  /\ updateCategory (Failure e) u =
       perform [updateRequest u;
                DisplayPopup error
                  (t "constants.popUpConstants.errorMessages.addCategoryError")
                  (raw e)] u.
Proof.
  intros Ho Hn Hd Ln Ld renamed typed. subst renamed.
  rewrite !(updateCategory_valid _ u Ho Hn Hd Ln Ld).
  split; [| split].
  - cbn. apply length_map.
  - intros i c Hc. cbn [categoryUpdated categories perform closeModal resetForm
      set_errorMessage set_categories]. rewrite lookup_map_category, Hc. reflexivity.
  - unfold perform. cbn. now rewrite <- app_assoc.
Qed.

Lemma updateCategory_in_place_witness :
  let u := typeName (js "Bills") (updateForm [Clients; Invoices] Invoices) in
  isOpen u = true /\
  blank (categoryName u) = false /\ blank (categoryDescription u) = false /\
  (length (categoryName u) <= 50)%nat /\ (length (categoryDescription u) <= 300)%nat /\
  categories (updateCategory (Success ()) u) =
    [Clients; {| name := js "Bills"; description := js "Bills to pay" |}].
Proof.
  intros u.
  assert (H1 : isOpen u = true) by reflexivity.
  assert (H2 : blank (categoryName u) = false) by reflexivity.
  assert (H3 : blank (categoryDescription u) = false) by reflexivity.
  assert (H4 : (length (categoryName u) <= 50)%nat) by (vm_compute; lia).
  assert (H5 : (length (categoryDescription u) <= 300)%nat) by (vm_compute; lia).
  destruct (updateCategory_in_place [] u H1 H2 H3 H4 H5) as [Hl [Hi _]].
  split; [exact H1 |]. split; [exact H2 |]. split; [exact H3 |].
  split; [exact H4 |]. split; [exact H5 |].
  apply list_eq. intros [|[|i]].
  - exact (Hi 0%nat Clients eq_refl).
  - exact (Hi 1%nat Invoices eq_refl).
  - reflexivity.
Defined.

Lemma in_names_renamed (old new d x : jsstring) (l : list Category) :
  In x (names (map (fun c => if opt_eqb (Some old) (name c)
                             then {| name := new; description := d |} else c) l)) ->
  (x = new /\ In old (names l)) \/ (In x (names l) /\ x <> old).
Proof.
  unfold names. induction l as [|c l IH]; cbn [map In]; [tauto |].
  unfold opt_eqb at 1. destruct (bool_decide_reflect (Some old = Some (name c))) as [E|E].
  - injection E as E. cbn [name]. intros [<- | H]; [left; split; [reflexivity | now left] |].
    destruct (IH H) as [[-> Ho] | [Hx Hn]]; [left | right]; tauto.
  - intros [<- | H].
    + right. split; [now left | congruence].
    + destruct (IH H) as [[-> Ho] | [Hx Hn]]; [left | right]; tauto.
Qed.

Lemma NoDup_names_renamed (old new d : jsstring) (l : list Category) :
  List.NoDup (names l) -> new = old \/ ~ In new (names l) ->
  List.NoDup (names (map (fun c => if opt_eqb (Some old) (name c)
                                   then {| name := new; description := d |} else c) l)).
Proof.
  unfold names at 1 2. induction l as [|c l IH]; cbn [map]; [constructor |].
  intros Hnd Hnew. inversion Hnd as [|? ? Hc Hl]; subst.
  assert (Hnew' : new = old \/ ~ In new (map name l)) by (cbn in Hnew; tauto).
  specialize (IH Hl Hnew').
  unfold opt_eqb at 1. destruct (bool_decide_reflect (Some old = Some (name c))) as [E|E].
  - injection E as E. unfold names. cbn [map name]. constructor; [| exact IH].
    intros H. apply in_names_renamed in H as [[_ Ho] | [Hx Hn]].
    + apply Hc. now rewrite <- E.
    + cbn in Hnew. destruct Hnew as [-> | Hnew]; [congruence |]. apply Hnew. now right.
  - unfold names. cbn [map]. constructor; [| exact IH].
    intros H. apply in_names_renamed in H as [[Hx Ho] | [Hx Hn]].
    + cbn in Hnew. destruct Hnew as [-> | Hnew]; [congruence |].
      apply Hnew. left. now symmetry.
    + contradiction.
Qed.

(** X10. A rename the server accepts keeps the names of the list
    distinct, provided the typed name is the old name or is not yet in
    the list. *)
Theorem updateCategory_keeps_names_distinct (u : State) (c : Category) :
  isOpen u = true ->
  blank (categoryName u) = false -> blank (categoryDescription u) = false ->
  (length (categoryName u) <= 50)%nat -> (length (categoryDescription u) <= 300)%nat ->
  category u = Some c ->
  List.NoDup (names (categories u)) ->
  categoryName u = name c \/ ~ In (categoryName u) (names (categories u)) ->
  List.NoDup (names (categories (updateCategory (Success ()) u))).
Proof.
  intros Ho Hn Hd Ln Ld Hc Hnd Hnew.
  rewrite (updateCategory_valid _ u Ho Hn Hd Ln Ld).
  cbn [categoryUpdated categories perform closeModal resetForm set_errorMessage
       set_categories propName category categoryName categoryDescription].
  unfold propName. change (category (perform _ u)) with (category u).
  rewrite Hc. cbn [fmap option_fmap option_map].
  apply NoDup_names_renamed; assumption.
Qed.

Lemma updateCategory_keeps_names_distinct_witness :
  let u := typeName (js "Bills") (updateForm [Clients; Invoices] Invoices) in
  isOpen u = true /\
  blank (categoryName u) = false /\ blank (categoryDescription u) = false /\
  (length (categoryName u) <= 50)%nat /\ (length (categoryDescription u) <= 300)%nat /\
  category u = Some Invoices /\
  List.NoDup (names (categories u)) /\
  (categoryName u = name Invoices \/ ~ In (categoryName u) (names (categories u))) /\
  List.NoDup (names (categories (updateCategory (Success ()) u))).
Proof.
  intros u.
  assert (H1 : isOpen u = true) by reflexivity.
  assert (H2 : blank (categoryName u) = false) by reflexivity.
  assert (H3 : blank (categoryDescription u) = false) by reflexivity.
  assert (H4 : (length (categoryName u) <= 50)%nat) by (vm_compute; lia).
  assert (H5 : (length (categoryDescription u) <= 300)%nat) by (vm_compute; lia).
  assert (H6 : category u = Some Invoices) by reflexivity.
  assert (H7 : List.NoDup (names (categories u))).
  { cbn. constructor; [ | constructor; [ intros [] | constructor ] ].
    intros [E | []]. vm_compute in E. discriminate E. }
  assert (H8 : categoryName u = name Invoices
               \/ ~ In (categoryName u) (names (categories u))).
  { right. intros [E | [E | []]]; vm_compute in E; discriminate E. }
  split; [exact H1 |]. split; [exact H2 |]. split; [exact H3 |].
  split; [exact H4 |]. split; [exact H5 |]. split; [exact H6 |].
  split; [exact H7 |]. split; [exact H8 |].
  exact (updateCategory_keeps_names_distinct u Invoices H1 H2 H3 H4 H5 H6 H7 H8).
Defined.

(** Renaming to the name of another category of the list leaves two
    entries of that name. *)
Example updateCategory_duplicates_name :
  let u := typeName (js "Clients") (updateForm [Clients; Invoices] Invoices) in
  names (categories (updateCategory (Success ()) u)) = [js "Clients"; js "Clients"].
Proof. reflexivity. Qed.

Lemma spliceNamed_cons (n : jsstring) (c : Category) (l : list Category) :
  spliceNamed n (c :: l) = if decide (name c = n) then l else c :: spliceNamed n l.
Proof.
  unfold spliceNamed. cbn [list_find]. destruct (decide (name c = n)); [reflexivity |].
  destruct (list_find _ l) as [[i x]|]; reflexivity.
Qed.

Lemma spliceNamed_absent (n : jsstring) (l : list Category) :
  ~ In n (names l) -> spliceNamed n l = l.
Proof.
  unfold names. induction l as [|c l IH]; [reflexivity |]. cbn [map In]. intros H.
  rewrite spliceNamed_cons. destruct (decide (name c = n)); [tauto |].
  rewrite IH; tauto.
Qed.

Lemma spliceNamed_present (n : jsstring) (l : list Category) :
  In n (names l) ->
  exists l1 c l2, l = l1 ++ c :: l2 /\ name c = n /\ ~ In n (names l1)
                  /\ spliceNamed n l = l1 ++ l2.
Proof.
  unfold names. induction l as [|c l IH]; [intros [] |]. cbn [map In]. intros H.
  rewrite spliceNamed_cons. destruct (decide (name c = n)) as [E|E].
  - exists [], c, l. repeat split; [exact E | intros []].
  - destruct H as [H | H]; [contradiction |].
    destruct (IH H) as [l1 [x [l2 [-> [Hx [Hl1 Hs]]]]]].
    exists (c :: l1), x, l2. rewrite Hs. repeat split; [exact Hx |].
    cbn. tauto.
Qed.

(** X11. A deletion the server accepts removes from the list the first
    category that bears the content of the name field and nothing else,
    keeping the order; when no category bears it the list is unchanged;
    and when the names of the list are distinct no category bears it
    afterwards. *)
Theorem deleteCategory_splices (DEFAULT_CATEGORY : jsstring) (st : State) :
  let n := categoryName st in
  let st' := deleteCategory DEFAULT_CATEGORY (Success ()) st in
  (~ In n (names (categories st)) -> categories st' = categories st)
  /\ (In n (names (categories st)) ->
      exists l1 c l2, categories st = l1 ++ c :: l2 /\ name c = n
                      /\ ~ In n (names l1) /\ categories st' = l1 ++ l2)
  /\ (List.NoDup (names (categories st)) -> ~ In n (names (categories st'))).
Proof.
  intros n st'.
  assert (E : categories st' = spliceNamed n (categories st)) by reflexivity.
  rewrite E. split; [apply spliceNamed_absent |]. split; [apply spliceNamed_present |].
  intros Hnd Hin.
  destruct (List.in_dec (List.list_eq_dec N.eq_dec) n (names (categories st)))
    as [Hp | Ha].
  - destruct (spliceNamed_present n _ Hp) as [l1 [c [l2 [El [Hc [Hl1 Hs]]]]]].
    rewrite Hs in Hin. rewrite El in Hnd. unfold names in *.
    rewrite map_app in Hnd, Hin. cbn [map] in Hnd.
    apply NoDup_remove_2 in Hnd. rewrite Hc in Hnd.
    rewrite in_app_iff in Hin, Hnd. tauto.
  - rewrite (spliceNamed_absent n _ Ha) in Hin. contradiction.
Qed.

(** Of two categories of the same name only the first is removed. *)
Example deleteCategory_first_of_two :
  let st := typeName (js "Clients")
              (updateForm [Invoices; Clients; Clients] Invoices) in
  names (categories (deleteCategory [] (Success ()) st)) = [js "Invoices"; js "Clients"].
Proof. reflexivity. Qed.

(** X12. [openCategoryDeletionModal] sends the delete request exactly
    when the form is open, the dependencies were fetched and both counts
    are zero; and it opens the confirmation dialog exactly when the form
    is open, the dependencies were fetched and a count is not zero, a
    failed fetch of the dependencies doing neither. *)
Theorem openCategoryDeletionModal_sends_iff (DEFAULT_CATEGORY : jsstring)
    (deps : FetchDataResult Dependencies) (del : FetchDataResult unit) (st : State) :
  isCategoryDeletionModalOpen st = false ->
  let st' := openCategoryDeletionModal DEFAULT_CATEGORY deps del st in
  (In (deleteRequest st) (performed st st') <->
     isOpen st = true /\ exists data,
       deps = Success data /\ nbRules data = 0%Z /\ nbEmails data = 0%Z)
  /\ (isCategoryDeletionModalOpen st' = true <->
        isOpen st = true /\ exists data,
          deps = Success data /\ ~ (nbRules data = 0%Z /\ nbEmails data = 0%Z)).
Proof.
  intros Hclosed st'. subst st'. destruct (isOpen st) eqn:Ho.
  2:{ unfold openCategoryDeletionModal. rewrite Ho. cbn [negb].
      unfold performed. rewrite drop_all. rewrite Hclosed. cbn.
      split; split; try tauto; try discriminate; intros [H _]; discriminate. }
  destruct deps as [data | e].
  - destruct (CategoryForms.openCategoryDeletionModal_gate DEFAULT_CATEGORY data del st Ho)
      as [Hsend Hdialog].
    split.
    + rewrite Hsend. split; [intros H; split; [reflexivity | now exists data] |].
      intros [_ [d [[= <-] H]]]. exact H.
    + split.
      * intros H. split; [reflexivity |]. exists data. split; [reflexivity |].
        intros Hz. revert H. unfold openCategoryDeletionModal. rewrite Ho. cbn [negb].
        destruct Hz as [-> ->]. cbn. destruct del; cbn; congruence.
      * intros [_ [d [[= <-] H]]]. now apply Hdialog.
  - unfold openCategoryDeletionModal. rewrite Ho. cbn [negb].
    unfold performed. cbn. rewrite <- ?app_assoc, drop_app_length. rewrite Hclosed.
    split; split.
    + intros [H | [H | [H | []]]]; discriminate.
    + intros [_ [d [H _]]]. discriminate.
    + discriminate.
    + intros [_ [d [H _]]]. discriminate.
Qed.

Lemma openCategoryDeletionModal_sends_iff_witness :
  let st := updateForm [Invoices; Clients] Clients in
  let st' := openCategoryDeletionModal [] (countDependents (propName st)) (Success ()) st in
  isCategoryDeletionModalOpen st = false /\
  isCategoryDeletionModalOpen st' = true /\
  ~ In (deleteRequest st) (performed st st').
Proof.
  intros st st'.
  assert (H : isCategoryDeletionModalOpen st = false) by reflexivity.
  destruct (openCategoryDeletionModal_sends_iff [] (countDependents (propName st))
              (Success ()) st H) as [Hs Hd].
  split; [exact H |]. split.
  - apply Hd. split; [reflexivity |].
    exists {| nbRules := 3; nbEmails := 12 |}. split; [reflexivity |].
    intros [E _]. discriminate E.
  - intros Hin. apply Hs in Hin as [_ [d [E [Hr _]]]].
    injection E as <-. discriminate Hr.
Defined.

End CategoryLists.

(** ** Keyboard handling of the two category forms *)

Module FormKeysFacts.
Import Inbox FormKeys.

Lemma tabTarget_field (n d : jsstring) (target : Focus) :
  tabTarget n d target <> Elsewhere
  /\ (n = [] -> tabTarget n d target = NameField)
  /\ (n <> [] -> d = [] -> tabTarget n d target = DescriptionField)
  /\ (n <> [] -> d <> [] ->
      tabTarget n d target =
        match target with DescriptionField => NameField | _ => DescriptionField end).
Proof.
  unfold tabTarget. destruct n as [|a n], d as [|b d], target; cbn;
    repeat split; congruence.
Qed.

Lemma new_tab (post : FetchDataResult unit) (st : NewCategoryModal.State)
    (focus : Focus) :
  newHandleKeyDown tab post (st, focus) =
    (NewCategoryModal.perform [preventDefault] st,
     focusIfRendered (NewCategoryModal.isOpen st)
       (tabTarget (NewCategoryModal.categoryName st)
                  (NewCategoryModal.categoryDescription st) focus) focus).
Proof. reflexivity. Qed.

Lemma update_tab (put : FetchDataResult unit) (st : UpdateCategoryModal.State)
    (focus : Focus) :
  updateHandleKeyDown tab put (st, focus) =
    (UpdateCategoryModal.perform [preventDefault] st,
     focusIfRendered (UpdateCategoryModal.isOpen st)
       (tabTarget (UpdateCategoryModal.categoryName st)
                  (UpdateCategoryModal.categoryDescription st) focus) focus).
Proof. reflexivity. Qed.

(** X13. With a category form open, [Tab] never leaves the form: the
    focus goes to the name field when the name is empty, else to the
    description field when the description is empty, else to the name
    field from the description field and to the description field from
    anywhere else, so that two [Tab]s from a field of a filled form come
    back to it; the fields themselves are not changed. *)
Theorem tab_stays_in_the_form (post put : FetchDataResult unit)
    (n : NewCategoryModal.State) (u : UpdateCategoryModal.State) (focus : Focus) :
  NewCategoryModal.isOpen n = true ->
  UpdateCategoryModal.isOpen u = true ->
  let n1 := newHandleKeyDown tab post (n, focus) in
  let u1 := updateHandleKeyDown tab put (u, focus) in
  (fst n1 = NewCategoryModal.perform [preventDefault] n
   /\ snd n1 <> Elsewhere
   /\ (NewCategoryModal.categoryName n = [] -> snd n1 = NameField)
   /\ (NewCategoryModal.categoryName n <> [] ->
       NewCategoryModal.categoryDescription n = [] -> snd n1 = DescriptionField)
   /\ (NewCategoryModal.categoryName n <> [] ->
       NewCategoryModal.categoryDescription n <> [] ->
       snd n1 = match focus with DescriptionField => NameField | _ => DescriptionField end
       /\ (focus <> Elsewhere ->
           snd (newHandleKeyDown tab post n1) = focus)))
  /\ (fst u1 = UpdateCategoryModal.perform [preventDefault] u
      /\ snd u1 <> Elsewhere
      /\ (UpdateCategoryModal.categoryName u = [] -> snd u1 = NameField)
      /\ (UpdateCategoryModal.categoryName u <> [] ->
          UpdateCategoryModal.categoryDescription u = [] -> snd u1 = DescriptionField)
      /\ (UpdateCategoryModal.categoryName u <> [] ->
          UpdateCategoryModal.categoryDescription u <> [] ->
          snd u1 = match focus with DescriptionField => NameField | _ => DescriptionField end
          /\ (focus <> Elsewhere ->
              snd (updateHandleKeyDown tab put u1) = focus))).
Proof.
  intros Hn Hu n1 u1. subst n1 u1. split.
  - rewrite !new_tab. cbn [fst snd].
    change (NewCategoryModal.isOpen (NewCategoryModal.perform _ n))
      with (NewCategoryModal.isOpen n).
    change (NewCategoryModal.categoryName (NewCategoryModal.perform _ n))
      with (NewCategoryModal.categoryName n).
    change (NewCategoryModal.categoryDescription (NewCategoryModal.perform _ n))
      with (NewCategoryModal.categoryDescription n).
    rewrite Hn. cbn [focusIfRendered].
    destruct (tabTarget_field (NewCategoryModal.categoryName n)
                (NewCategoryModal.categoryDescription n) focus) as [H1 [H2 [H3 H4]]].
    split; [reflexivity |]. split; [exact H1 |]. split; [exact H2 |].
    split; [exact H3 |]. intros Hne Hde. split; [now apply H4 |].
    intros Hf. rewrite (H4 Hne Hde).
    destruct (NewCategoryModal.categoryName n) as [|a nn]; [contradiction |].
    destruct (NewCategoryModal.categoryDescription n) as [|b dd]; [contradiction |].
    destruct focus; [reflexivity | reflexivity | contradiction].
  - rewrite !update_tab. cbn [fst snd].
    change (UpdateCategoryModal.isOpen (UpdateCategoryModal.perform _ u))
      with (UpdateCategoryModal.isOpen u).
    change (UpdateCategoryModal.categoryName (UpdateCategoryModal.perform _ u))
      with (UpdateCategoryModal.categoryName u).
    change (UpdateCategoryModal.categoryDescription (UpdateCategoryModal.perform _ u))
      with (UpdateCategoryModal.categoryDescription u).
    rewrite Hu. cbn [focusIfRendered].
    destruct (tabTarget_field (UpdateCategoryModal.categoryName u)
                (UpdateCategoryModal.categoryDescription u) focus) as [H1 [H2 [H3 H4]]].
    split; [reflexivity |]. split; [exact H1 |]. split; [exact H2 |].
    split; [exact H3 |]. intros Hne Hde. split; [now apply H4 |].
    intros Hf. rewrite (H4 Hne Hde).
    destruct (UpdateCategoryModal.categoryName u) as [|a nn]; [contradiction |].
    destruct (UpdateCategoryModal.categoryDescription u) as [|b dd]; [contradiction |].
    destruct focus; [reflexivity | reflexivity | contradiction].
Qed.

Lemma tab_stays_in_the_form_witness :
  let n := creationForm (js "Invoices") (js "Bills to pay") in
  let u := updateForm [Invoices] Invoices in
  NewCategoryModal.isOpen n = true /\ UpdateCategoryModal.isOpen u = true /\
  snd (newHandleKeyDown tab (Success ()) (n, Elsewhere)) = DescriptionField /\
  snd (updateHandleKeyDown tab (Success ()) (u, DescriptionField)) = NameField.
Proof.
  intros n u.
  assert (Hn : NewCategoryModal.isOpen n = true) by reflexivity.
  assert (Hu : UpdateCategoryModal.isOpen u = true) by reflexivity.
  split; [exact Hn |]. split; [exact Hu |].
  destruct (tab_stays_in_the_form (Success ()) (Success ()) n u Elsewhere Hn Hu)
    as [[_ [_ [_ [_ H]]]] _].
  destruct (tab_stays_in_the_form (Success ()) (Success ()) n u DescriptionField Hn Hu)
    as [_ [_ [_ [_ [_ H']]]]].
  split.
  - apply H; vm_compute; discriminate.
  - apply H'; vm_compute; discriminate.
Defined.

Lemma new_escape (post : FetchDataResult unit) (st : NewCategoryModal.State)
    (focus : Focus) :
  newHandleKeyDown escape post (st, focus) =
    (NewCategoryModal.closeModal (NewCategoryModal.perform [preventDefault] st), focus).
Proof. reflexivity. Qed.

Lemma update_escape (put : FetchDataResult unit) (st : UpdateCategoryModal.State)
    (focus : Focus) :
  updateHandleKeyDown escape put (st, focus) =
    (UpdateCategoryModal.closeModal (UpdateCategoryModal.perform [preventDefault] st),
     focus).
Proof. reflexivity. Qed.

(** X14. The key handlers are bound to the document and run while the
    form is closed: then [Enter] and [Tab] only cancel the default action
    of the key, sending nothing and moving no focus, and [Escape] still
    emits [close]; with [Shift], [Enter] is left alone, open or closed. *)
Theorem keys_on_a_closed_form (post put : FetchDataResult unit)
    (n : NewCategoryModal.State) (u : UpdateCategoryModal.State) (focus : Focus) :
  NewCategoryModal.isOpen n = false ->
  UpdateCategoryModal.isOpen u = false ->
  newHandleKeyDown enter post (n, focus) = (NewCategoryModal.perform [preventDefault] n, focus)
  /\ newHandleKeyDown tab post (n, focus) = (NewCategoryModal.perform [preventDefault] n, focus)
  /\ NewCategoryModal.effects (fst (newHandleKeyDown escape post (n, focus))) =
       NewCategoryModal.effects n ++ [preventDefault; Emit "close" JUndefined]
  /\ updateHandleKeyDown enter put (u, focus) =
       (UpdateCategoryModal.perform [preventDefault] u, focus)
  /\ updateHandleKeyDown tab put (u, focus) =
       (UpdateCategoryModal.perform [preventDefault] u, focus)
  /\ UpdateCategoryModal.effects (fst (updateHandleKeyDown escape put (u, focus))) =
       UpdateCategoryModal.effects u ++ [preventDefault; Emit "close" JUndefined]
  /\ newHandleKeyDown {| key := js "Enter"; shiftKey := true |} post (n, focus) = (n, focus)
  /\ updateHandleKeyDown {| key := js "Enter"; shiftKey := true |} put (u, focus)
     = (u, focus).
Proof.
  intros Hn Hu.
  split; [| split; [| split; [| split; [| split; [| split; [| split]]]]]].
  - change (newHandleKeyDown enter post (n, focus))
      with (NewCategoryModal.addCategory post
              (NewCategoryModal.perform [preventDefault] n), focus).
    unfold NewCategoryModal.addCategory.
    change (NewCategoryModal.isOpen (NewCategoryModal.perform _ n))
      with (NewCategoryModal.isOpen n). now rewrite Hn.
  - rewrite new_tab. now rewrite Hn.
  - rewrite new_escape. cbn. rewrite <- ?app_assoc. reflexivity.
  - change (updateHandleKeyDown enter put (u, focus))
      with (UpdateCategoryModal.updateCategory put
              (UpdateCategoryModal.perform [preventDefault] u), focus).
    unfold UpdateCategoryModal.updateCategory.
    change (UpdateCategoryModal.isOpen (UpdateCategoryModal.perform _ u))
      with (UpdateCategoryModal.isOpen u). now rewrite Hu.
  - rewrite update_tab. now rewrite Hu.
  - rewrite update_escape. cbn. rewrite <- ?app_assoc. reflexivity.
  - reflexivity.
  - reflexivity.
Qed.

Lemma keys_on_a_closed_form_witness :
  let n := NewCategoryModal.closeModal (creationForm [] []) in
  let closed :=
    {| NewCategoryModal.isOpen := false;
       NewCategoryModal.categories := NewCategoryModal.categories n;
       NewCategoryModal.selectedCategory := NewCategoryModal.selectedCategory n;
       NewCategoryModal.categoryName := NewCategoryModal.categoryName n;
       NewCategoryModal.categoryDescription := NewCategoryModal.categoryDescription n;
       NewCategoryModal.errorMessage := NewCategoryModal.errorMessage n;
       NewCategoryModal.effects := [] |} in
  let u := UpdateCategoryModal.mounted [Invoices] (js "Invoices") in
  NewCategoryModal.isOpen closed = false /\ UpdateCategoryModal.isOpen u = false /\
  newHandleKeyDown enter (Success ()) (closed, Elsewhere)
    = (NewCategoryModal.perform [preventDefault] closed, Elsewhere).
Proof.
  intros n closed u.
  assert (Hn : NewCategoryModal.isOpen closed = false) by reflexivity.
  assert (Hu : UpdateCategoryModal.isOpen u = false) by reflexivity.
  split; [exact Hn |]. split; [exact Hu |].
  exact (proj1 (keys_on_a_closed_form (Success ()) (Success ()) closed u Elsewhere Hn Hu)).
Defined.

End FormKeysFacts.

(** ** Settings: linking a mailbox *)

Module AccountLinking.
Import Account.

Lemma linkEmail_sends (code : jsstring) (regrantConsent : option bool)
    (post : FetchDataResult unit) (get : FetchDataResult (list EmailLinked))
    (st : State) :
  let st' := linkEmail code regrantConsent post get st in
  searchCode st' = None /\ sessionStorage st' = ∅ /\ typeApi st' = typeApi st
  /\ exists rest, performed st st' = linkRequest code st :: rest.
Proof.
  intros st'. subst st'. split; [reflexivity |]. split; [reflexivity |].
  split; [unfold linkEmail; destruct post as [[]|e], get, (default false regrantConsent);
          reflexivity |].
  unfold linkEmail, performed.
  destruct post as [[]|e], get, (default false regrantConsent);
    cbn [effects forgetAuthorization perform fetchEmailLinked set_emailsLinked];
    rewrite <- ?app_assoc, drop_app_length; eexists; reflexivity.
Qed.

(** X15. [checkAuthorizationCode] consumes the authorization code: run
    on an address that carries a code it sends one link request with
    that code and leaves neither the code nor the session storage
    behind, whatever the server answers, and a second run does nothing;
    on an address without a code it does nothing at all. *)
Theorem checkAuthorizationCode_once
    (post post' : FetchDataResult unit) (get get' : FetchDataResult (list EmailLinked))
    (st : State) :
  let st' := checkAuthorizationCode post get st in
  checkAuthorizationCode post' get' st' = st'
  /\ (searchCode st = None -> st' = st)
  /\ (forall code, searchCode st = Some code -> code <> [] ->
        searchCode st' = None /\ sessionStorage st' = ∅
        /\ typeApi st' = typeApi st
        /\ exists rest, performed st st' = linkRequest code st :: rest).
Proof.
  intros st'. subst st'.
  destruct (searchCode st) as [code|] eqn:Ec.
  2:{ assert (E : checkAuthorizationCode post get st = st)
        by (unfold checkAuthorizationCode; now rewrite Ec).
      rewrite E. split; [| split; [reflexivity | discriminate]].
      unfold checkAuthorizationCode. now rewrite Ec. }
  destruct code as [|c code].
  { assert (E : checkAuthorizationCode post get st = st)
      by (unfold checkAuthorizationCode; now rewrite Ec).
    rewrite E. split; [| split; [discriminate |]].
    - unfold checkAuthorizationCode. now rewrite Ec.
    - intros code' [= <-] H. contradiction. }
  assert (E : exists r, checkAuthorizationCode post get st
                        = linkEmail (c :: code) r post get st).
  { unfold checkAuthorizationCode. rewrite Ec. cbn [falsy].
    destruct (bool_decide _); eexists; reflexivity. }
  destruct E as [r E]. rewrite E.
  destruct (linkEmail_sends (c :: code) r post get st) as [Hs Hrest].
  split; [| split; [discriminate |]].
  - unfold checkAuthorizationCode. now rewrite Hs.
  - intros code' [= <-] _. split; [exact Hs | exact Hrest].
Qed.

(** X16. The consent regrant changes nothing but a message: with or
    without it [linkEmail] sends the same request and ends in the same
    state of the page, the texts of the success pop-up excepted; when
    the server refuses, the two runs are the same and display the error
    of the server. *)
Theorem linkEmail_regrant_only_message (code e : jsstring)
    (get : FetchDataResult (list EmailLinked)) (st : State) :
  let regrant := linkEmail code (Some true) (Success ()) get st in
  let plain := linkEmail code None (Success ()) get st in
  typeApi regrant = typeApi plain
  /\ emailsLinked regrant = emailsLinked plain
  /\ sessionStorage regrant = sessionStorage plain
  /\ searchCode regrant = searchCode plain
  /\ removelast (effects regrant) = removelast (effects plain)
  /\ last (effects regrant) =
       Some (DisplayPopup ok (t "constants.popUpConstants.successMessages.success")
               (t "settingsPage.accountPage.connectionReestablishedSuccess"))
  /\ last (effects plain) =
       Some (DisplayPopup ok (t "constants.popUpConstants.successMessages.success")
               (t "settingsPage.accountPage.emailLinkedSuccess"))
  /\ linkEmail code (Some true) (Failure e) get st = linkEmail code None (Failure e) get st
  /\ last (effects (linkEmail code None (Failure e) get st)) =
       Some (DisplayPopup error (t "settingsPage.accountPage.emailLinkingFailure") (raw e))
  /\ emailsLinked (linkEmail code None (Failure e) get st) = emailsLinked st.
Proof.
  intros regrant plain. subst regrant plain. unfold linkEmail.
  destruct get as [l | e']; cbn; rewrite ?removelast_last, ?last_snoc;
    repeat split; reflexivity.
Qed.

(** X17. [authorize] opens the linking dialog exactly when the provider
    is Microsoft or Google and the plan, when there is one, is active and
    not a trial; and it never calls the server. *)
Theorem authorize_opens_dialog_iff (userPlan : option Plan) (provider : jsstring)
    (st : State) :
  (In (Call "openAddUserDescriptionModal" [])
      (performed st (authorize userPlan provider st))
   <-> (provider = MICROSOFT \/ provider = GOOGLE)
       /\ (userPlan = None
           \/ exists plan, userPlan = Some plan
                /\ isTrial plan = false /\ isActive plan = true))
  /\ (forall e, In e (performed st (authorize userPlan provider st)) ->
        e = Call "openAddUserDescriptionModal" []
        \/ e = trialDenied \/ e = inactiveDenied).
Proof.
  assert (Hprov : str_eqb provider MICROSOFT || str_eqb provider GOOGLE = true
                  <-> provider = MICROSOFT \/ provider = GOOGLE).
  { unfold str_eqb. rewrite orb_true_iff, !bool_decide_eq_true. reflexivity. }
  assert (Hstart : In (Call "openAddUserDescriptionModal" [])
                      (performed st (startLinking provider st))
                   <-> provider = MICROSOFT \/ provider = GOOGLE).
  { rewrite AccountPage.performed_startLinking, <- Hprov.
    destruct (_ || _); cbn; intuition discriminate. }
  split.
  - destruct userPlan as [plan|]; cbn [authorize].
    + destruct (isTrial plan) eqn:Et.
      { rewrite AccountPage.performed_page. cbn. split.
        - intros [H | []]. discriminate.
        - intros [_ [H | [p [[= <-] [H _]]]]]; congruence. }
      destruct (isActive plan) eqn:Ea; cbn [negb].
      { rewrite Hstart. split; [| tauto]. intros H. split; [exact H |].
        right. exists plan. auto. }
      rewrite AccountPage.performed_page. cbn. split.
      * intros [H | []]. discriminate.
      * intros [_ [H | [p [[= <-] [_ H]]]]]; congruence.
    + rewrite Hstart. split; [| tauto]. intros H. split; [exact H | now left].
  - intros e. destruct userPlan as [plan|]; cbn [authorize].
    + destruct (isTrial plan).
      { rewrite AccountPage.performed_page. intros [<- | []]. auto. }
      destruct (isActive plan); cbn [negb].
      * rewrite AccountPage.performed_startLinking.
        destruct (_ || _); cbn; intuition.
      * rewrite AccountPage.performed_page. intros [<- | []]. auto.
    + rewrite AccountPage.performed_startLinking.
      destruct (_ || _); cbn; intuition.
Qed.

End AccountLinking.

(** ** Password reset form *)

Module PasswordResetFacts.
Import PasswordReset.

Lemma performed_perform_reset (es : list Effect) (st : State) :
  performed st (perform es st) = es.
Proof. unfold performed. cbn [effects perform]. apply drop_app_length. Qed.

Lemma perform_perform_reset (es es' : list Effect) (st : State) :
  perform es' (perform es st) = perform (es ++ es') st.
Proof. unfold perform. cbn. now rewrite <- app_assoc. Qed.

(** X18. [resetPassword] sends the new password exactly when its length
    is within the two bounds and the confirmation is the same string;
    a length outside the bounds is reported first, a confirmation that
    differs next, and in both cases nothing is sent. *)
Theorem resetPassword_sends_iff (PASSWORD_MIN_LENGTH PASSWORD_MAX_LENGTH : nat)
    (API_BASE_URL : jsstring) (response : Response) (st : State) :
  let st' := resetPassword PASSWORD_MIN_LENGTH PASSWORD_MAX_LENGTH API_BASE_URL
               response st in
  let inBounds := (PASSWORD_MIN_LENGTH <= length (password st)
                   /\ length (password st) <= PASSWORD_MAX_LENGTH)%nat in
  (In (resetRequest API_BASE_URL st) (performed st st')
   <-> inBounds /\ password st = confirmPassword st)
  /\ (~ inBounds ->
      performed st st' =
        displayPopup error invalidInput (t "passwordReset.passwordLengthError"))
  /\ (inBounds -> password st <> confirmPassword st ->
      performed st st' =
        displayPopup error invalidInput (t "passwordReset.passwordsDoNotMatch")).
Proof.
  intros st' inBounds. subst st' inBounds. unfold resetPassword.
  destruct (Nat.ltb_spec (length (password st)) PASSWORD_MIN_LENGTH) as [L1|L1];
    cbn [orb].
  { rewrite performed_perform_reset. split; [| split; [reflexivity | lia]].
    split; [| lia]. intros [H | [H | []]]; discriminate. }
  destruct (Nat.ltb_spec PASSWORD_MAX_LENGTH (length (password st))) as [L2|L2].
  { rewrite performed_perform_reset. split; [| split; [reflexivity | lia]].
    split; [| lia]. intros [H | [H | []]]; discriminate. }
  unfold str_eqb. destruct (bool_decide_reflect (password st = confirmPassword st))
    as [E|E]; cbn [negb].
  - split; [| split; [lia | contradiction]].
    split; [intros _; split; [lia | exact E] | intros _].
    destruct response; rewrite perform_perform_reset, performed_perform_reset;
      left; reflexivity.
  - rewrite performed_perform_reset. split; [| split; [lia | reflexivity]].
    split; [| tauto]. intros [H | [H | []]]; discriminate.
Qed.

(** X19. Once the request is sent, the form announces the success and
    schedules the return to the login page exactly when the response is
    [ok]; otherwise it displays the error text of the response or the
    message of the exception, and the generic error when that text is
    missing or empty, so that the text displayed is never empty. *)
Theorem resetPassword_answers (PASSWORD_MIN_LENGTH PASSWORD_MAX_LENGTH : nat)
    (API_BASE_URL : jsstring) (response : Response) (st : State) :
  (PASSWORD_MIN_LENGTH <= length (password st))%nat ->
  (length (password st) <= PASSWORD_MAX_LENGTH)%nat ->
  password st = confirmPassword st ->
  let st' := resetPassword PASSWORD_MIN_LENGTH PASSWORD_MAX_LENGTH API_BASE_URL
               response st in
  (In (Call "setTimeout(router.push({ name: 'login' }), 3000)" []) (performed st st')
   <-> response = ResponseOk)
  /\ (forall e, response = ResponseError (Some e) \/ response = Thrown e -> e <> [] ->
        In (DisplayPopup error invalidInput (raw e)) (performed st st'))
  /\ (response = ResponseError None \/ response = ResponseError (Some [])
      \/ response = Thrown [] ->
      In (DisplayPopup error invalidInput genericError) (performed st st'))
  /\ (forall type title, ~ In (DisplayPopup type title (raw [])) (performed st st')).
Proof.
  intros L1 L2 E st'. subst st'. unfold resetPassword.
  apply Nat.ltb_ge in L1. rewrite L1. apply Nat.leb_le in L2.
  assert (L2' : (PASSWORD_MAX_LENGTH <? length (password st))%nat = false)
    by (apply Nat.ltb_ge; now apply Nat.leb_le).
  rewrite L2'. cbn [orb]. unfold str_eqb. rewrite bool_decide_eq_true_2 by exact E.
  cbn [negb].
  destruct response as [| [[|c e]|] | [|c m]];
    rewrite perform_perform_reset, performed_perform_reset; cbn;
    (split; [split; [intuition discriminate | intuition discriminate] |]);
    (split; [intros e' [[= <-] | [= <-]] He; try contradiction; tauto |]);
    (split; [intros H; repeat (destruct H as [H | H]); try discriminate; tauto |]);
    intros type title H; repeat (destruct H as [H | H]); try discriminate; tauto.
Qed.

Lemma resetPassword_answers_witness :
  let st := typed (js "correct horse") (js "correct horse") in
  (8 <= length (password st))%nat /\ (length (password st) <= 32)%nat /\
  password st = confirmPassword st /\
  In (DisplayPopup error invalidInput genericError)
     (performed st (resetPassword 8 32 (js "https://app.aomail.ai/MailAssistant/")
                      (ResponseError (Some [])) st)).
Proof.
  intros st.
  assert (H1 : (8 <= length (password st))%nat) by (vm_compute; lia).
  assert (H2 : (length (password st) <= 32)%nat) by (vm_compute; lia).
  assert (H3 : password st = confirmPassword st) by reflexivity.
  split; [exact H1 |]. split; [exact H2 |]. split; [exact H3 |].
  destruct (resetPassword_answers 8 32 (js "https://app.aomail.ai/MailAssistant/")
              (ResponseError (Some [])) st H1 H2 H3) as [_ [_ [H _]]].
  apply H. right. left. reflexivity.
Defined.

End PasswordResetFacts.

(** ** User preferences *)

Module PreferencesFacts.
Import Preferences.

Lemma beforeQuery_no_mark (u : jsstring) : ~ In 63%N u -> beforeQuery u = u.
Proof.
  induction u as [|c u IH]; [reflexivity |]. cbn [In beforeQuery]. intros H.
  destruct (N.eqb_spec c 63) as [->|_]; [tauto |]. rewrite IH; tauto.
Qed.

Lemma beforeQuery_app (u q : jsstring) :
  ~ In 63%N u -> beforeQuery (u ++ 63%N :: q) = u.
Proof.
  induction u as [|c u IH]; [reflexivity |]. cbn [In app beforeQuery]. intros H.
  destruct (N.eqb_spec c 63) as [->|_]; [tauto |]. rewrite IH; tauto.
Qed.

(** X20. [isUnAuthenticatedUrl] looks at the address up to its first
    question mark only: an address and the same address followed by a
    query get the same answer, so each of the five public addresses is
    recognised with any query. *)
Theorem isUnAuthenticatedUrl_ignores_query (VUE_APP_ENV u q : jsstring) :
  ~ In 63%N u ->
  isUnAuthenticatedUrl VUE_APP_ENV (u ++ js "?" ++ q) = isUnAuthenticatedUrl VUE_APP_ENV u
  /\ (In u (UNAUTHENTICATED_URLS VUE_APP_ENV) ->
      isUnAuthenticatedUrl VUE_APP_ENV (u ++ js "?" ++ q) = true).
Proof.
  intros H. unfold isUnAuthenticatedUrl.
  change (js "?" ++ q) with (63%N :: q).
  rewrite beforeQuery_app, beforeQuery_no_mark by exact H.
  split; [reflexivity |]. intros Hin. apply existsb_exists. exists u.
  split; [exact Hin |]. unfold str_eqb. now apply bool_decide_eq_true.
Qed.

Lemma isUnAuthenticatedUrl_ignores_query_witness :
  let u := js "https://app.aomail.ai/signup" in
  ~ In 63%N u /\
  isUnAuthenticatedUrl (js "app") (u ++ js "?" ++ js "ref=mail") = true
  /\ isUnAuthenticatedUrl (js "app") (js "https://app.aomail.ai/signup/") = false.
Proof.
  intros u.
  assert (H : ~ In 63%N u).
  { vm_compute. intros H. repeat (destruct H as [H | H]; [discriminate H |]). exact H. }
  split; [exact H |]. split; [| reflexivity].
  apply (isUnAuthenticatedUrl_ignores_query (js "app") u (js "ref=mail") H).
  vm_compute. tauto.
Defined.

Lemma fetchUserPreference_fetches (endpoint : string) (key : jsstring)
    (allowedValues : option (list jsstring))
    (result : FetchDataResult (option Json)) (st : Store) :
  (forall w allowed, localStorage st !! key = Some w ->
     allowedValues = Some allowed -> w = [] \/ arrayIncludes allowed w = false) ->
  fetchUserPreference endpoint key allowedValues result st =
    match result with
    | Success (Some (JStr value)) =>
        (Some value,
         {| localStorage := <[key := value]> (localStorage st);
            requests := requests st ++ [GetData endpoint] |})
    | _ => (None, {| localStorage := localStorage st;
                     requests := requests st ++ [GetData endpoint] |})
    end.
Proof.
  intros H. unfold fetchUserPreference.
  destruct (localStorage st !! key) as [w|] eqn:Ew.
  - destruct allowedValues as [allowed|].
    + destruct (H w allowed eq_refl eq_refl) as [-> | ->]; cbn [falsy negb andb];
        [| rewrite andb_false_r];
        destruct result as [[[]|]|]; reflexivity.
    + rewrite andb_false_r. destruct result as [[[]|]|]; reflexivity.
  - destruct result as [[[]|]|]; reflexivity.
Qed.

(** X21. A preference fetched from the server is served from the local
    storage afterwards: when the server answers with a string that is
    not empty and is one of the allowed values, the call returns and
    stores it, and the next call returns it again without any request,
    whatever the server would answer. *)
Theorem fetchUserPreference_cached (endpoint : string) (key v : jsstring)
    (allowed : list jsstring) (again : FetchDataResult (option Json)) (st : Store) :
  (forall w, localStorage st !! key = Some w ->
     w = [] \/ arrayIncludes allowed w = false) ->
  v <> [] -> arrayIncludes allowed v = true ->
  let first :=
    fetchUserPreference endpoint key (Some allowed) (Success (Some (JStr v))) st in
  let second := fetchUserPreference endpoint key (Some allowed) again (snd first) in
  fst first = Some v
  /\ requests (snd first) = requests st ++ [GetData endpoint]
  /\ localStorage (snd first) !! key = Some v
  /\ fst second = Some v
  /\ snd second = snd first.
Proof.
  intros Hst Hv Ha first second. subst second first.
  rewrite (fetchUserPreference_fetches endpoint key (Some allowed) _ st).
  2:{ intros w a Hw [= <-]. now apply Hst. }
  cbn [fst snd requests localStorage].
  split; [reflexivity |]. split; [reflexivity |].
  split; [apply lookup_insert_eq |].
  unfold fetchUserPreference. cbn [localStorage]. rewrite lookup_insert_eq.
  destruct v as [|c v]; [contradiction |]. cbn [falsy negb andb]. rewrite Ha.
  split; reflexivity.
Qed.

Lemma fetchUserPreference_cached_witness :
  let first :=
    fetchUserPreference "user/preferences/theme/" (js "theme") (Some ALLOWED_THEMES)
      (Success (Some (JStr (js "dark")))) emptyStore in
  let second :=
    fetchUserPreference "user/preferences/theme/" (js "theme") (Some ALLOWED_THEMES)
      (Failure (js "offline")) (snd first) in
  (forall w, localStorage emptyStore !! js "theme" = Some w ->
     w = [] \/ arrayIncludes ALLOWED_THEMES w = false) /\
  js "dark" <> [] /\ arrayIncludes ALLOWED_THEMES (js "dark") = true /\
  fst second = Some (js "dark") /\ snd second = snd first.
Proof.
  intros first second.
  assert (H1 : forall w, localStorage emptyStore !! js "theme" = Some w ->
                 w = [] \/ arrayIncludes ALLOWED_THEMES w = false).
  { intros w Hw. vm_compute in Hw. discriminate Hw. }
  assert (H2 : js "dark" <> []) by (vm_compute; discriminate).
  assert (H3 : arrayIncludes ALLOWED_THEMES (js "dark") = true) by reflexivity.
  split; [exact H1 |]. split; [exact H2 |]. split; [exact H3 |].
  destruct (fetchUserPreference_cached "user/preferences/theme/" (js "theme") (js "dark")
              ALLOWED_THEMES (Failure (js "offline")) emptyStore H1 H2 H3)
    as [_ [_ [_ [Ha Hb]]]].
  split; [exact Ha | exact Hb].
Defined.

(** X22. [fetchUserPreference] answers without a request only with the
    value of the local storage, and only when that value is not empty
    and is one of the allowed values; in particular, called without a
    list of allowed values it always asks the server. *)
Theorem fetchUserPreference_no_request (endpoint : string) (key : jsstring)
    (allowedValues : option (list jsstring))
    (result : FetchDataResult (option Json)) (st : Store) :
  let answer := fetchUserPreference endpoint key allowedValues result st in
  (requests (snd answer) = requests st \/
   requests (snd answer) = requests st ++ [GetData endpoint])
  /\ (requests (snd answer) = requests st ->
      snd answer = st
      /\ exists v allowed,
           allowedValues = Some allowed /\ fst answer = Some v /\ v <> []
           /\ arrayIncludes allowed v = true /\ localStorage st !! key = Some v)
  /\ (allowedValues = None ->
      requests (snd answer) = requests st ++ [GetData endpoint]).
Proof.
  intros answer. subst answer.
  assert (Hne : requests st ++ [GetData endpoint] <> requests st)
    by apply CategoryLists.app_cons_not_self.
  destruct (localStorage st !! key) as [w|] eqn:Ew.
  - destruct allowedValues as [allowed|].
    + destruct w as [|c w].
      * rewrite fetchUserPreference_fetches
          by (intros w' a Hw _; left; pose proof (eq_trans (eq_sym Ew) Hw); congruence).
        destruct result as [[[]|]|]; cbn [fst snd requests];
          (split; [now right |]); (split; [intros H; contradiction | discriminate]).
      * destruct (arrayIncludes allowed (c :: w)) eqn:Ea.
        { unfold fetchUserPreference. rewrite Ew. cbn [falsy negb andb]. rewrite Ea.
          cbn [fst snd]. split; [now left |]. split; [| discriminate].
          intros _. split; [reflexivity |]. exists (c :: w), allowed.
          repeat split; try reflexivity; try assumption. discriminate. }
        rewrite fetchUserPreference_fetches
          by (intros w' a Hw [= <-]; right; pose proof (eq_trans (eq_sym Ew) Hw); congruence).
        destruct result as [[[]|]|]; cbn [fst snd requests];
          (split; [now right |]); (split; [intros H; contradiction | discriminate]).
    + rewrite fetchUserPreference_fetches by (intros w' a _ H; discriminate H).
      destruct result as [[[]|]|]; cbn [fst snd requests];
        (split; [now right |]); (split; [intros H; contradiction | reflexivity]).
  - rewrite fetchUserPreference_fetches by (intros w' a Hw; pose proof (eq_trans (eq_sym Ew) Hw); congruence).
    destruct result as [[[]|]|]; cbn [fst snd requests];
      (split; [now right |]); (split; [intros H; contradiction | intros _; reflexivity]).
Qed.

(** X23. On a public address [initializePreferences] does nothing: no
    request is sent, the local storage is not read into the preferences,
    and the preferences stay as they are, with or without a query. *)
Theorem initializePreferences_public_address (VUE_APP_ENV u q : jsstring)
    (language theme timezone : FetchDataResult (option Json)) (st : State) :
  In u (UNAUTHENTICATED_URLS VUE_APP_ENV) -> ~ In 63%N u ->
  initializePreferences VUE_APP_ENV u language theme timezone st = st
  /\ initializePreferences VUE_APP_ENV (u ++ js "?" ++ q) language theme timezone st = st.
Proof.
  intros Hin Hq. unfold initializePreferences, isUnAuthenticatedUrl.
  change (js "?" ++ q) with (63%N :: q).
  rewrite beforeQuery_app, beforeQuery_no_mark by exact Hq.
  assert (E : existsb (fun baseUrl => str_eqb u baseUrl)
                      (UNAUTHENTICATED_URLS VUE_APP_ENV) = true).
  { apply existsb_exists. exists u. split; [exact Hin |].
    unfold str_eqb. now apply bool_decide_eq_true. }
  rewrite E. split; reflexivity.
Qed.

Lemma initializePreferences_public_address_witness :
  let u := js "https://app.aomail.ai/reset-password-form" in
  let st := initial {| localStorage := {[ js "theme" := js "dark" ]}; requests := [] |} in
  In u (UNAUTHENTICATED_URLS (js "app")) /\ ~ In 63%N u /\
  initializePreferences (js "app") (u ++ js "?" ++ js "uidb64=MQ&token=c1-abc")
    (Failure []) (Failure []) (Failure []) st = st.
Proof.
  intros u st.
  assert (H1 : In u (UNAUTHENTICATED_URLS (js "app"))) by (vm_compute; tauto).
  assert (H2 : ~ In 63%N u).
  { vm_compute. intros H. repeat (destruct H as [H | H]; [discriminate H |]). exact H. }
  split; [exact H1 |]. split; [exact H2 |].
  exact (proj2 (initializePreferences_public_address (js "app") u
                  (js "uidb64=MQ&token=c1-abc") (Failure []) (Failure []) (Failure [])
                  st H1 H2)).
Defined.

(** Where a value returned by [fetchUserPreference] comes from. *)
Lemma fetchUserPreference_value (endpoint : string) (key : jsstring)
    (allowedValues : option (list jsstring))
    (result : FetchDataResult (option Json)) (st : Store) (v : jsstring) :
  fst (fetchUserPreference endpoint key allowedValues result st) = Some v ->
  (exists allowed, allowedValues = Some allowed /\ arrayIncludes allowed v = true
                   /\ localStorage st !! key = Some v)
  \/ result = Success (Some (JStr v)).
Proof.
  unfold fetchUserPreference.
  destruct (localStorage st !! key) as [w|] eqn:Ew.
  - destruct (negb (falsy w) && _) eqn:Ec.
    + cbn [fst]. intros [= <-]. left. apply andb_true_iff in Ec as [_ Ec].
      destruct allowedValues as [allowed|]; [| discriminate]. now exists allowed.
    + destruct result as [[[]|]|]; cbn [fst]; try discriminate.
      intros [= <-]. now right.
  - destruct result as [[[]|]|]; cbn [fst]; try discriminate.
    intros [= <-]. now right.
Qed.

Lemma truthy_Some (o : option jsstring) (v : jsstring) :
  truthy o = Some v -> o = Some v /\ v <> [].
Proof.
  destruct o as [[|c w]|]; cbn; try discriminate. intros [= <-]. split; [reflexivity | discriminate].
Qed.

(** X24. On any other address [initializePreferences] ends with the
    request of the time zone, which is never served from the local
    storage. The language and the locale change together, and a
    preference changes only to a string that is not empty: one of the
    allowed values when it is read from the local storage, and whatever
    string the server answered otherwise, allowed or not. *)
Theorem initializePreferences_sources (VUE_APP_ENV url : jsstring)
    (language theme timezone : FetchDataResult (option Json)) (st : State) :
  isUnAuthenticatedUrl VUE_APP_ENV url = false ->
  let st' := initializePreferences VUE_APP_ENV url language theme timezone st in
  last (requests (store st')) = Some (GetData "user/preferences/timezone/")
  /\ ((languageSelected st' = languageSelected st /\ locale st' = locale st)
      \/ (languageSelected st' = locale st' /\ languageSelected st' <> []
          /\ (arrayIncludes ALLOWED_LANGUAGES (languageSelected st') = true
              \/ language = Success (Some (JStr (languageSelected st'))))))
  /\ (themeSelected st' = themeSelected st
      \/ (themeSelected st' <> []
          /\ (arrayIncludes ALLOWED_THEMES (themeSelected st') = true
              \/ theme = Success (Some (JStr (themeSelected st'))))))
  /\ (timezoneSelected st' = timezoneSelected st
      \/ (timezoneSelected st' <> []
          /\ timezone = Success (Some (JStr (timezoneSelected st'))))).
Proof.
  intros Hu st'. subst st'. unfold initializePreferences. rewrite Hu.
  destruct (fetchUserPreference _ (js "language") _ language (store st)) as [l s1] eqn:El.
  destruct (fetchUserPreference _ (js "theme") _ theme s1) as [th s2] eqn:Et.
  destruct (fetchUserPreference _ (js "timezone") _ timezone s2) as [tz s3] eqn:Ez.
  cbn [store languageSelected locale themeSelected timezoneSelected].
  split; [| split; [| split]].
  - apply (f_equal snd) in Ez. cbn [snd] in Ez. rewrite <- Ez.
    rewrite fetchUserPreference_fetches by (intros w a _ H; discriminate H).
    destruct timezone as [[[]|]|]; cbn [requests]; apply last_snoc.
  - destruct (truthy l) as [v|] eqn:Ev; [right | left; split; reflexivity].
    apply truthy_Some in Ev as [-> Hv]. cbn [default].
    split; [reflexivity |]. split; [exact Hv |].
    apply (f_equal fst) in El. cbn [fst] in El.
    apply fetchUserPreference_value in El as [[a [[= <-] [Ha _]]] | E]; [now left | now right].
  - destruct (truthy th) as [v|] eqn:Ev; [right | left; reflexivity].
    apply truthy_Some in Ev as [-> Hv]. cbn [default]. split; [exact Hv |].
    apply (f_equal fst) in Et. cbn [fst] in Et.
    apply fetchUserPreference_value in Et as [[a [[= <-] [Ha _]]] | E]; [now left | now right].
  - destruct (truthy tz) as [v|] eqn:Ev; [right | left; reflexivity].
    apply truthy_Some in Ev as [-> Hv]. cbn [default]. split; [exact Hv |].
    apply (f_equal fst) in Ez. cbn [fst] in Ez.
    apply fetchUserPreference_value in Ez as [[a [H _]] | E]; [discriminate H | exact E].
Qed.

Lemma initializePreferences_sources_witness :
  let url := js "https://app.aomail.ai/home" in
  let st := initial {| localStorage := {[ js "timezone" := js "Europe/Paris" ]};
                       requests := [] |} in
  let st' := initializePreferences (js "app") url (Success (Some (JStr (js "klingon"))))
               (Failure []) (Success None) st in
  isUnAuthenticatedUrl (js "app") url = false /\
  last (requests (store st')) = Some (GetData "user/preferences/timezone/") /\
  languageSelected st' = js "klingon" /\ themeSelected st' = js "light" /\
  timezoneSelected st' = js "UTC".
Proof.
  intros url st st'.
  assert (H : isUnAuthenticatedUrl (js "app") url = false) by reflexivity.
  split; [exact H |]. split; [| repeat split].
  exact (proj1 (initializePreferences_sources (js "app") url
                  (Success (Some (JStr (js "klingon")))) (Failure []) (Success None)
                  st H)).
Defined.

End PreferencesFacts.
